(** * A shallow embedding of the table and search logic of
    [bluepea/static/pylib/inspector.py].

    The module is Python compiled to JavaScript: row objects are JavaScript
    objects, shared by reference between [Table.data], [Table._shownData]
    and [Table._selected], and mutated in place ([datum._uid = ...],
    [obj._selected = True], [del obj._selected]).  We therefore model rows
    as references into a store of objects, and every object as the ordered
    list of its own properties. *)

From Stdlib Require Import List String Ascii ZArith Lia Bool Permutation Sorted.
Import ListNotations.
Set Warnings "-register-all".
Open Scope list_scope.
Open Scope string_scope.

(* ------------------------------------------------------------------ *)
(** ** JSON-like values and objects *)

Inductive jval : Type :=
| JNull
| JBool (b : bool)
| JNum (z : Z)
| JStr (s : string)
| JArr (l : list jval)
| JObj (o : list (string * jval)).

(** An object: its own enumerable properties in enumeration order. *)
Definition obj := list (string * jval).

(** [obj[k]]; [None] is JavaScript's [undefined] (missing property). *)
Fixpoint get (k : string) (o : obj) : option jval :=
  match o with
  | [] => None
  | (k', v) :: o' => if String.eqb k k' then Some v else get k o'
  end.

(** [o.k = v]: an existing property keeps its place, a new one is appended. *)
Fixpoint set_prop (k : string) (v : jval) (o : obj) : obj :=
  match o with
  | [] => [(k, v)]
  | (k', v') :: o' =>
      if String.eqb k k' then (k, v) :: o' else (k', v') :: set_prop k v o'
  end.

(** [del o.k] *)
Definition del_prop (k : string) (o : obj) : obj :=
  filter (fun kv => negb (String.eqb (fst kv) k)) o.

(** The store of row objects; a row is a reference into it. *)
Definition ref := nat.
Definition heap := ref -> obj.

Definition upd (h : heap) (r : ref) (o : obj) : heap :=
  fun r' => if Nat.eqb r' r then o else h r'.

(* ------------------------------------------------------------------ *)
(** ** String helpers (Python's [str] methods on ASCII strings) *)

(** [s.startswith(p)] *)
Fixpoint startswith (s p : string) : bool :=
  match p, s with
  | EmptyString, _ => true
  | String a p', String b s' => Ascii.eqb a b && startswith s' p'
  | String _ _, EmptyString => false
  end.

(** [s.endswith(p)] *)
Definition endswith (s p : string) : bool :=
  let n := String.length s in
  let m := String.length p in
  Nat.leb m n && String.eqb (substring (n - m) m s) p.

(** [s[1:-1]] *)
Definition strip_ends (s : string) : string :=
  substring 1 (String.length s - 2) s.

Definition lower_ascii (c : ascii) : ascii :=
  let n := nat_of_ascii c in
  if Nat.leb 65 n && Nat.leb n 90 then ascii_of_nat (n + 32) else c.

(** [s.lower()] *)
Fixpoint lower (s : string) : string :=
  match s with
  | EmptyString => EmptyString
  | String c s' => String (lower_ascii c) (lower s')
  end.

(** [t in s] for strings: [t] is a substring of [s]. *)
Fixpoint contains (t s : string) : bool :=
  startswith s t ||
  match s with
  | EmptyString => false
  | String _ s' => contains t s'
  end.

(** Keys starting with an underscore are "private" in this module. *)
Definition is_private (k : string) : bool := startswith k "_".

(* ------------------------------------------------------------------ *)
(** ** [JSON.stringify(value, replacer, space)]

    A replacer is called with the property key and the value.  The
    replacers of this module return either the value unchanged or
    JavaScript's [undefined]; we model them as the test [false] for
    [undefined].  A property whose replacer result is [undefined] is left out
    of an object and written [null] inside an array.  The whole value is
    first passed to the replacer under the key [""]. *)

Definition replacer := string -> jval -> bool.

Definition nl : string := String (ascii_of_nat 10) EmptyString.

Definition digit (d : Z) : ascii := ascii_of_nat (48 + Z.to_nat d).

Fixpoint digits_aux (fuel : nat) (n : Z) (acc : string) : string :=
  match fuel with
  | O => acc
  | S f =>
      let acc' := String (digit (Z.modulo n 10)) acc in
      if Z.ltb n 10 then acc' else digits_aux f (Z.div n 10) acc'
  end.

(** [Number.prototype.toString] on integers. *)
Definition z_to_string (z : Z) : string :=
  let a := Z.abs z in
  let ds := digits_aux (S (Z.to_nat (Z.log2 a))) a EmptyString in
  if Z.ltb z 0 then "-" ++ ds else ds.

Definition hex_digit (n : nat) : ascii :=
  if Nat.ltb n 10 then ascii_of_nat (48 + n) else ascii_of_nat (87 + n).

(** QuoteJSONString, one code unit. *)
Definition escape_char (c : ascii) : string :=
  let n := nat_of_ascii c in
  if Nat.eqb n 34 then String "\" (String "034" EmptyString)
  else if Nat.eqb n 92 then String "\" (String "\" EmptyString)
  else if Nat.eqb n 8 then "\b"
  else if Nat.eqb n 12 then "\f"
  else if Nat.eqb n 10 then "\n"
  else if Nat.eqb n 13 then "\r"
  else if Nat.eqb n 9 then "\t"
  else if Nat.ltb n 32 then
    "\u00" ++ String (hex_digit (n / 16)) (String (hex_digit (n mod 16)) EmptyString)
  else String c EmptyString.

Fixpoint escape (s : string) : string :=
  match s with
  | EmptyString => EmptyString
  | String c s' => escape_char c ++ escape s'
  end.

Definition quote (s : string) : string :=
  String "034" (escape s ++ String "034" EmptyString).

(** [sep.join(l)] *)
Fixpoint join (sep : string) (l : list string) : string :=
  match l with
  | [] => EmptyString
  | [x] => x
  | x :: l' => x ++ sep ++ join sep l'
  end.

Section Stringify.
Variable rep : replacer.
Variable gap : string.

(** SerializeJSONProperty / SerializeJSONObject / SerializeJSONArray for a
    value the replacer has already been applied to. *)
Fixpoint ser (indent : string) (v : jval) : string :=
  let ind := indent ++ gap in
  let wrap (op cl : string) (parts : list string) :=
    match parts with
    | [] => op ++ cl
    | _ => op ++ nl ++ ind ++ join ("," ++ nl ++ ind) parts ++ nl ++ indent ++ cl
    end in
  match v with
  | JNull => "null"
  | JBool true => "true"
  | JBool false => "false"
  | JNum z => z_to_string z
  | JStr s => quote s
  | JArr l =>
      wrap "[" "]"
        ((fix elems (i : nat) (l : list jval) : list string :=
            match l with
            | [] => []
            | x :: l' =>
                (if rep (z_to_string (Z.of_nat i)) x then ser ind x
                 else "null") :: elems (S i) l'
            end) 0 l)
  | JObj o =>
      wrap "{" "}"
        ((fix members (o : list (string * jval)) : list string :=
            match o with
            | [] => []
            | (k, x) :: o' =>
                if rep k x then (quote k ++ ": " ++ ser ind x) :: members o'
                else members o'
            end) o)
  end.

Definition stringify (v : jval) : option string :=
  if rep "" v then Some (ser "" v) else None.
End Stringify.

(** The replacer of [Table._stringify]: hide any key starting with "_". *)
Definition hide_private : replacer :=
  fun key value => negb (startswith key "_").

(** No replacer. *)
Definition no_replacer : replacer := fun _ _ => true.

(** [Table._stringify(obj)] = [JSON.stringify(obj, replacer, 2)]. *)
Definition _stringify (o : obj) : option string :=
  stringify hide_private "  " (JObj o).

(** The value with every property whose key starts with "_" removed, at
    every depth: the reading of the spec's "re-serialized with any field
    whose name starts with the reserved prefix omitted". *)
Fixpoint strip_private (v : jval) : jval :=
  match v with
  | JArr l => JArr (map strip_private l)
  | JObj o =>
      JObj ((fix go (o : list (string * jval)) :=
               match o with
               | [] => []
               | (k, x) :: o' =>
                   if is_private k then go o' else (k, strip_private x) :: go o'
               end) o)
  | _ => v
  end.

(** Pretty-printing with two spaces and no replacer. *)
Definition pretty (v : jval) : string := ser no_replacer "  " "" v.

(* ------------------------------------------------------------------ *)
(** ** [Searcher] *)

Module Searcher.

Record searcher := mk_searcher {
  searchTerm : option string;
  caseSensitive : bool
}.

(** [Searcher.__init__] *)
Definition init : searcher := mk_searcher None false.

Definition dquote : string := String "034" EmptyString.

(** [Searcher.setSearch(term)]; [None] is [null]/[undefined]. *)
Definition setSearch (term : option string) : searcher :=
  let t := match term with Some x => x | None => "" end in   (* term or "" *)
  let cs := startswith t dquote && endswith t dquote in
  if cs then mk_searcher (Some (strip_ends t)) true
  else mk_searcher (Some (lower t)) false.

(** [Searcher._checkPrimitive(item)].  [searchTerm] is [None] only before
    the first [setSearch]; the search is installed as a filter only after
    a [setSearch], so that case is never evaluated. *)
Definition _checkPrimitive (s : searcher) (item : jval) : bool :=
  match item, searchTerm s with
  | JStr x, Some t => contains t (if caseSensitive s then x else lower x)
  | _, _ => false
  end.

(** [Searcher._checkAny(value)]; the [JObj] case is the loop of
    [Searcher.search]. *)
Fixpoint _checkAny (s : searcher) (v : jval) : bool :=
  match v with
  | JObj o =>
      (fix search_props (o : list (string * jval)) : bool :=
         match o with
         | [] => false
         | (key, value) :: o' =>
             if startswith key "_" then search_props o'      (* continue *)
             else if _checkAny s value then true
             else search_props o'
         end) o
  | JArr l =>
      (fix any (l : list jval) : bool :=
         match l with
         | [] => false
         | item :: l' => if _checkAny s item then true else any l'
         end) l
  | _ => _checkPrimitive s v
  end.

(** [Searcher.search(obj)] *)
Definition search (s : searcher) (o : obj) : bool := _checkAny s (JObj o).

End Searcher.

(* ------------------------------------------------------------------ *)
(** ** [Field] and its subclasses *)

Module Fields.

(** The class of a field: [Field], [FillField], [DateField], [EpochField],
    or [IDField] with its [Header] (DID, HID, OID and MID fields are
    [IDField]s with the headers "did:igo:", "hid:", "o_" and "m_"). *)
Inductive fkind := KField | KFill | KDate | KEpoch | KID (header : string).

Record field := mk_field {
  fid : nat;          (* object identity *)
  title : string;
  mlength : nat;
  name : string;
  kind : fkind
}.

Definition DID := KID "did:igo:".
Definition HID := KID "hid:".
Definition OID := KID "o_".
Definition MID := KID "m_".

(** Class attributes [Title] and [Length]. *)
Definition class_title (k : fkind) : option string :=
  match k with
  | KField | KFill => None
  | KDate | KEpoch => Some "Date"
  | KID h =>
      if String.eqb h "did:igo:" then Some "DID"
      else if String.eqb h "hid:" then Some "HID"
      else Some "UID"
  end.

Definition class_length (k : fkind) : nat :=
  match k with
  | KField => 4 | KFill => 100 | KDate | KEpoch => 12 | KID _ => 4
  end.

(** [Field.__init__(title, length)]; [None.lower()] raises. *)
Definition make (id : nat) (k : fkind) (t : option string) (len : option nat)
  : option field :=
  match (match t with Some x => Some x | None => class_title k end) with
  | Some ttl =>
      Some (mk_field id ttl
              (match len with Some n => n | None => class_length k end)
              (lower ttl) k)
  | None => None
  end.

(** [str(value)] on the values of this model: strings unchanged, integers
    in decimal, booleans and null as Python prints them; arrays and
    objects, which no field holds, as JavaScript's String() prints them. *)
Definition str (v : jval) : string :=
  match v with
  | JStr s => s
  | JNum z => z_to_string z
  | JBool true => "True"
  | JBool false => "False"
  | JNull => "None"
  | JArr _ => ""
  | JObj _ => "[object Object]"
  end.

Definition is_digit (c : ascii) : bool :=
  Nat.leb 48 (nat_of_ascii c) && Nat.leb (nat_of_ascii c) 57.

Fixpoint parse_digits (s : string) (acc : Z) : option Z :=
  match s with
  | EmptyString => Some acc
  | String c s' =>
      if is_digit c then parse_digits s' (acc * 10 + Z.of_nat (nat_of_ascii c - 48))
      else None
  end.

(** JavaScript's ToNumber for the values of this model: [None] is NaN.
    Strings are read as an optional sign followed by decimal digits; the
    empty string is 0.  (Other numeric spellings such as "1e3" or padded
    strings are outside this model and read as NaN.) *)
Definition to_number (v : jval) : option Z :=
  match v with
  | JNum z => Some z
  | JNull => Some 0%Z
  | JBool b => Some (if b then 1 else 0)%Z
  | JStr EmptyString => Some 0%Z
  | JStr (String "-" (String _ _ as s)) => option_map Z.opp (parse_digits s 0)
  | JStr (String "+" (String _ _ as s)) => parse_digits s 0
  | JStr s => parse_digits s 0
  | JArr _ | JObj _ => None
  end.

(** Zero-padded decimal of width [w]. *)
Definition pad (w : nat) (n : Z) : string :=
  let s := z_to_string n in
  (fix zeros (k : nat) : string :=
     match k with O => EmptyString | S k' => String "0" (zeros k') end)
    (w - String.length s) ++ s.

(** Days since 1970-01-01 to (year, month, day) in the proleptic
    Gregorian calendar. *)
Definition civil_from_days (days : Z) : Z * Z * Z :=
  let z := (days + 719468)%Z in
  let era := (z / 146097)%Z in
  let doe := (z - era * 146097)%Z in
  let yoe := ((doe - doe / 1460 + doe / 36524 - doe / 146096) / 365)%Z in
  let y := (yoe + era * 400)%Z in
  let doy := (doe - (365 * yoe + yoe / 4 - yoe / 100))%Z in
  let mp := ((5 * doy + 2) / 153)%Z in
  let d := (doy - (153 * mp + 2) / 5 + 1)%Z in
  let m := if Z.ltb mp 10 then (mp + 3)%Z else (mp - 9)%Z in
  (if Z.leb m 2 then (y + 1)%Z else y, m, d).

(** [Date.prototype.toISOString] of a valid time value (milliseconds). *)
Definition toISOString (t : Z) : string :=
  let days := (t / 86400000)%Z in
  let msd := (t mod 86400000)%Z in
  let '(y, m, d) := civil_from_days days in
  let ys := if Z.leb 0 y && Z.leb y 9999 then pad 4 y
            else (if Z.ltb y 0 then "-" else "+") ++ pad 6 (Z.abs y) in
  ys ++ "-" ++ pad 2 m ++ "-" ++ pad 2 d ++ "T" ++
  pad 2 (msd / 3600000) ++ ":" ++ pad 2 ((msd / 60000) mod 60) ++ ":" ++
  pad 2 ((msd / 1000) mod 60) ++ "." ++ pad 3 (msd mod 1000) ++ "Z".

(** [__new__(Date(x)).toISOString()] with [x = data / 1000]: the Date
    constructor truncates its argument (TimeClip); NaN or a time beyond
    8.64e15 ms gives an invalid date, whose [toISOString] raises a
    RangeError ([None]). *)
Definition epoch_iso (data : jval) : option string :=
  match to_number data with
  | None => None
  | Some n =>
      let t := Z.quot n 1000 in
      if Z.ltb 8640000000000000 (Z.abs t) then None else Some (toISOString t)
  end.

(** [format(data)] of each class; [None] when it raises. *)
Definition format (k : fkind) (data : jval) : option string :=
  match k with
  | KField | KFill | KDate => Some (str data)
  | KEpoch =>
      (* data = Date(data / 1000).toISOString(); return super().format(data) *)
      match epoch_iso data with
      | Some iso => Some (str (JStr iso))
      | None => None
      end
  | KID header =>
      match data with
      | JStr s =>
          let s' := if startswith s header
                    then substring (String.length header)
                           (String.length s - String.length header) s
                    else s in
          Some (str (JStr s'))
      | _ => None     (* a non-string has no [startswith] *)
      end
  end.

(** [shorten(string)]: the identity in every class. *)
Definition shorten (k : fkind) (s : string) : string := s.

(** A [<td>] vnode: its attributes and its text. *)
Record td := mk_td { td_attrs : list (string * string); td_text : string }.

(** [view(data)]; the argument [None] is a missing value ([undefined]).
    [data == None] holds for [null] and [undefined]. *)
Definition view (k : fkind) (data : option jval) : option td :=
  let d := match data with
           | None | Some JNull => JStr ""
           | Some v => v
           end in
  match format k d with
  | None => None
  | Some formatted =>
      let node := mk_td [("title", formatted)] (shorten k formatted) in
      match k with
      | KFill => Some (mk_td (td_attrs node ++ [("class", "fill-space")]) (td_text node))
      | _ => Some node
      end
  end.

End Fields.

(* ------------------------------------------------------------------ *)
(** ** [list.sort(key=..., reverse=...)]

    Transcrypt compiles [l.sort(key=k, reverse=r)] to its runtime's
    [__sort__(l, k, r)], which runs

      [l.sort(function comparator (a, b) { return k (a) > k (b) ? 1 : -1; })]

    and then [l.reverse()] when [r] is true.  The comparator never returns
    0: of two rows with equal keys, each compares below the other.  The
    array sort itself is the JavaScript engine's, and with such a
    comparator the standard leaves the order of equal keys to the engine.
    We model it as an insertion sort driven by the comparator alone, the
    result of V8's binary insertion sort when the keys are consistently
    ordered: each row, from left to right, goes before the first row of the
    sorted prefix that the comparator puts after it.  [k(a) > k(b)] is
    [lt (key b) (key a)]. *)

Section PySort.
Context {A K : Type}.
Variable key : A -> K.
Variable lt : K -> K -> bool.

Definition comparator (a b : A) : Z :=
  if lt (key b) (key a) then 1%Z else (-1)%Z.

Fixpoint insert (x : A) (l : list A) : list A :=
  match l with
  | [] => [x]
  | y :: l' => if Z.ltb (comparator x y) 0 then x :: l else y :: insert x l'
  end.

Fixpoint js_sort_from (acc l : list A) : list A :=
  match l with
  | [] => acc
  | x :: l' => js_sort_from (insert x acc) l'
  end.

(** [Array.prototype.sort(comparator)] *)
Definition js_sort (l : list A) : list A := js_sort_from [] l.

(** [__sort__]: sort with a given array sort, then reverse when asked. *)
Definition sort_then_reverse (srt : list A -> list A) (rev_ : bool) (l : list A) : list A :=
  let s := srt l in if rev_ then rev s else s.

Definition py_sort (rev_ : bool) (l : list A) : list A :=
  sort_then_reverse js_sort rev_ l.
End PySort.

(* ------------------------------------------------------------------ *)
(** ** [Table] *)

Module Table.
Import Fields.

(** A filter function.  [FSearch] is the bound method [searcher.search]
    of the one [Searcher] of [Tabs]; [FFun id p] is any other predicate,
    with its identity.  Transcrypt binds a method afresh at each access
    ([__get__] builds a new function), so two reads of
    [self.searcher.search] are different functions and [!=] holds between
    them. *)
Inductive filt := FSearch | FFun (id : nat) (p : obj -> bool).

Definition filt_eqb (a b : filt) : bool :=
  match a, b with
  | FSearch, FSearch => false
  | FFun i _, FFun j _ => Nat.eqb i j
  | _, _ => false
  end.

Definition opt_filt_eqb (a b : option filt) : bool :=
  match a, b with
  | None, None => true
  | Some x, Some y => filt_eqb x y
  | _, _ => false
  end.

(** [self.filter(obj)]; the search reads the searcher's current state. *)
Definition apply_filt (s : Searcher.searcher) (f : filt) (o : obj) : bool :=
  match f with
  | FSearch => Searcher.search s o
  | FFun _ p => p o
  end.

(** [field == other]: fields have no [__eq__], so this is identity. *)
Definition opt_field_eqb (a : option field) (b : field) : bool :=
  match a with Some x => Nat.eqb (fid x) (fid b) | None => false end.

(** JavaScript's [==] on two property values ([None] is [undefined]).
    The [_uid] values compared by [_selectRow] are the numbers written by
    [_setData]. *)
Definition loose_eq (a b : option jval) : bool :=
  match a, b with
  | (None | Some JNull), (None | Some JNull) => true
  | Some (JNum x), Some (JNum y) => Z.eqb x y
  | Some (JStr x), Some (JStr y) => String.eqb x y
  | Some (JBool x), Some (JBool y) => Bool.eqb x y
  | _, _ => false
  end.

Record table := mk_table {
  max_size : nat;
  fields : list field;
  data : list ref;
  _shownData : list ref;
  _selected : option ref;
  detailSelected : string;
  filter : option filt;
  sortField : option field;
  reversed : bool;
  total : nat;
  shown : nat
}.

(** [Table.__init__(fields)] *)
Definition init (fs : list field) : table :=
  mk_table 1000 fs [] [] None "" None None false 0 0.

Definition set_data (t : table) (d : list ref) (tot : nat) : table :=
  mk_table (max_size t) (fields t) d (_shownData t) (_selected t)
    (detailSelected t) (filter t) (sortField t) (reversed t) tot (shown t).
Definition set_shownData (t : table) (sd : list ref) (n : nat) : table :=
  mk_table (max_size t) (fields t) (data t) sd (_selected t)
    (detailSelected t) (filter t) (sortField t) (reversed t) (total t) n.
Definition set_selected (t : table) (sel : option ref) (det : string) : table :=
  mk_table (max_size t) (fields t) (data t) (_shownData t) sel det
    (filter t) (sortField t) (reversed t) (total t) (shown t).
Definition set_filter (t : table) (f : option filt) : table :=
  mk_table (max_size t) (fields t) (data t) (_shownData t) (_selected t)
    (detailSelected t) f (sortField t) (reversed t) (total t) (shown t).
Definition set_sort (t : table) (sf : option field) (rv : bool) : table :=
  mk_table (max_size t) (fields t) (data t) (_shownData t) (_selected t)
    (detailSelected t) (filter t) sf rv (total t) (shown t).

(** [server.clearArray(array)], from [pylib/server.py], which is not part
    of the sources at hand.  Modelled from the spec: it discards all the
    elements of the array ("discards all existing rows"). *)
Definition clearArray (l : list ref) : list ref := [].

(** [JSON.stringify] of an object with a replacer that keeps the key ""
    always returns a string (see [_stringify_some]). *)
Definition detail_of (o : obj) : string :=
  match _stringify o with Some s => s | None => "" end.

Section Ops.
(** [Table._getField(obj, field)], which subclasses override
    ([obj[field.name]] in [Table] itself, see [base_getField]). *)
Variable _getField : obj -> field -> option jval.
(** [<] between two extracted keys, as the runtime evaluates it. *)
Variable key_lt : option jval -> option jval -> bool.

(** The rows of [_shownData] in the order [_sortData] leaves them. *)
Definition sorted_shown (h : heap) (t : table) : list ref :=
  match sortField t with
  | None => _shownData t
  | Some f => py_sort (fun r => _getField (h r) f) key_lt (reversed t) (_shownData t)
  end.

(** [Table._sortData] *)
Definition _sortData (h : heap) (t : table) : table :=
  match sortField t with
  | None => t
  | Some f =>
      set_shownData t
        (py_sort (fun r => _getField (h r) f) key_lt (reversed t) (_shownData t))
        (shown t)
  end.

(** The loop of [Table._processData]: [acc] is [_shownData] and [n] is
    [self.shown] so far. *)
Fixpoint accept_loop (accept : ref -> bool) (max : nat) (rows : list ref)
  (acc : list ref) (n : nat) : list ref * nat :=
  match rows with
  | [] => (acc, n)
  | obj :: rows' =>
      if Nat.leb max n then (acc, n)                          (* break *)
      else if accept obj then accept_loop accept max rows' (acc ++ [obj]) (S n)
      else accept_loop accept max rows' acc n                 (* continue *)
  end.

Definition accepts (s : Searcher.searcher) (h : heap) (t : table) (r : ref) : bool :=
  match filter t with
  | None => true
  | Some f => apply_filt s f (h r)
  end.

(** The shown subsequence selected by [_processData], before sorting. *)
Definition select_shown (s : Searcher.searcher) (h : heap) (t : table) : list ref * nat :=
  accept_loop (accepts s h t) (max_size t) (data t) (clearArray (_shownData t)) 0.

(** [Table._processData] *)
Definition _processData (s : Searcher.searcher) (h : heap) (t : table) : table :=
  let '(sd, n) := select_shown s h t in
  _sortData h (set_shownData t sd n).

(** [Table.clear] *)
Definition clear (t : table) : table := set_data t (clearArray (data t)) 0.

(** The loop of [Table._setData]: [datum._uid = self.total],
    [self.data.append(datum)], [self.total += 1]. *)
Fixpoint add_rows (h : heap) (t : table) (rows : list ref) : table * heap :=
  match rows with
  | [] => (t, h)
  | datum :: rows' =>
      let h' := upd h datum (set_prop "_uid" (JNum (Z.of_nat (total t))) (h datum)) in
      add_rows h' (set_data t (data t ++ [datum]) (S (total t))) rows'
  end.

(** [Table._setData(data, clear)] *)
Definition _setData (s : Searcher.searcher) (h : heap) (rows : list ref) (clr : bool)
  (t : table) : table * heap :=
  let t1 := if clr then clear t else t in
  let '(t2, h2) := add_rows h t1 rows in
  (_processData s h2 t2, h2).

(** [Table.refresh] of the base class: [self._setData([])]. *)
Definition refresh (s : Searcher.searcher) (h : heap) (t : table) : table * heap :=
  _setData s h [] true t.

(** [Table.setFilter(func)] *)
Definition setFilter (s : Searcher.searcher) (h : heap) (func : option filt)
  (t : table) : table :=
  if negb (opt_filt_eqb func (filter t)) then _processData s h (set_filter t func)
  else t.

(** [Table.setSort(field)] *)
Definition setSort (h : heap) (fld : field) (t : table) : table :=
  let t' := if opt_field_eqb (sortField t) fld
            then set_sort t (sortField t) (negb (reversed t))
            else set_sort t (Some fld) false in
  _sortData h t'.

(** [Table._selectRow(event, obj)] *)
Definition _selectRow (h : heap) (t : table) (o : ref) : table * heap :=
  let select (h1 : heap) :=
    let h2 := upd h1 o (set_prop "_selected" (JBool true) (h1 o)) in
    (set_selected t (Some o) (detail_of (h2 o)), h2) in
  match _selected t with
  | Some sel =>
      let h1 := upd h sel (del_prop "_selected" (h sel)) in
      if loose_eq (get "_uid" (h1 sel)) (get "_uid" (h1 o))
      then (set_selected t None "", h1)
      else select h1
  | None => select h
  end.
End Ops.

(** [Table._getField] of the base class: [obj[field.name]]. *)
Definition base_getField (o : obj) (f : field) : option jval := get (name f) o.

End Table.

(* ------------------------------------------------------------------ *)
(** ** [Tabs]: the refresh guard *)

Module RefreshGuard.

(** The state [Tabs.refresh] reads and writes, and the promises of the
    aggregate refreshes: [pending] lists the aggregates not yet settled,
    [next] is the next promise identity, [started] counts the per-table
    refreshes started so far. *)
Record guard := mk_guard {
  _refreshing : bool;
  _refreshPromise : option nat;
  pending : list nat;
  next : nat;
  started : nat
}.

(** [len(self.tabs)] *)
Definition ntabs : nat := 5.

(** [Tabs.refresh()]: returns the new state and the promise returned. *)
Definition refresh (g : guard) : guard * option nat :=
  if _refreshing g then (g, _refreshPromise g)
  else
    (* promises.append(tab.table.refresh()) for each tab;
       self._refreshPromise = Promise.all(promises) *)
    let p := next g in
    (mk_guard true (Some p) (p :: pending g) (S (next g)) (started g + ntabs), Some p).

(** The aggregate [p] settles, fulfilled ([ok = true]) or rejected.  Its
    reactions run: [.then(done)] on fulfilment, [.catch(done)] on
    rejection; both run [done], which sets [_refreshing = False]. *)
Definition settle (g : guard) (p : nat) (ok : bool) : guard :=
  if existsb (Nat.eqb p) (pending g) then
    let g' := mk_guard (_refreshing g) (_refreshPromise g)
                (List.filter (fun q => negb (Nat.eqb q p)) (pending g)) (next g) (started g) in
    if ok then mk_guard false (_refreshPromise g') (pending g') (next g') (started g')
    else mk_guard false (_refreshPromise g') (pending g') (next g') (started g')
  else g.

Inductive event := Call | Settle (p : nat) (ok : bool).

Definition step (g : guard) (e : event) : guard :=
  match e with
  | Call => fst (refresh g)
  | Settle p ok => settle g p ok
  end.

Definition run (g : guard) (es : list event) : guard := fold_left step es g.

(** [Tabs.__init__]: the guard starts cleared and [self.refresh()] is
    called once. *)
Definition init : guard := fst (refresh (mk_guard false None [] 0 0)).

End RefreshGuard.

(* ------------------------------------------------------------------ *)
(** ** [Tabs]: the tables, the shared searcher and the search actions *)

Module TabsModel.
Import Fields Table.

Definition mkf (id : nat) (k : fkind) (ttl : string) (len : option nat) : field :=
  mk_field id ttl (match len with Some n => n | None => class_length k end) (lower ttl) k.

Definition entities_fields : list field :=
  [mkf 0 DID "DID" None; mkf 1 HID "HID" None; mkf 2 DID "Signer" None;
   mkf 3 KDate "Changed" None; mkf 4 KField "Issuants" None; mkf 5 KFill "Data" None;
   mkf 6 KField "Keys" None].
Definition issuants_fields : list field :=
  [mkf 10 DID "DID" None; mkf 11 KField "Kind" None; mkf 12 KFill "Issuer" None;
   mkf 13 KDate "Registered" None; mkf 14 KFill "URL" None].
Definition offers_fields : list field :=
  [mkf 20 OID "UID" None; mkf 21 DID "Thing" None; mkf 22 DID "Aspirant" None;
   mkf 23 KField "Duration" (Some 5); mkf 24 KDate "Expiration" None;
   mkf 25 DID "Signer" None; mkf 26 DID "Offerer" None].
Definition messages_fields : list field :=
  [mkf 30 MID "UID" None; mkf 31 KField "Kind" (Some 8); mkf 32 KDate "Date" None;
   mkf 33 DID "To" None; mkf 34 DID "From" None; mkf 35 DID "Thing" None;
   mkf 36 KField "Subject" (Some 10); mkf 37 KFill "Content" None].
Definition anonmsgs_fields : list field :=
  [mkf 40 (KID "") "UID" None; mkf 41 KDate "Date" None; mkf 42 KEpoch "Created" None;
   mkf 43 KEpoch "Expire" None; mkf 44 KFill "Content" None].

Record world := mk_world {
  w_heap : heap;
  searcher : Searcher.searcher;
  tables : list table           (* tab.table for tab in self.tabs *)
}.

Definition init (h0 : heap) : world :=
  mk_world h0 Searcher.init
    (map Table.init [entities_fields; issuants_fields; offers_fields;
                     messages_fields; anonmsgs_fields]).

(** An operation on one table. *)
Inductive op :=
| OClear
| OSetData (rows : list ref) (clr : bool)
| OSetFilter (f : option filt)
| OSetSort (fld : field)
| OSelect (o : ref)
| ORefresh.

Section WithKeys.
(** [_getField] of the table at each position of [self.tabs]. *)
Variable getField_at : nat -> obj -> field -> option jval.
Variable key_lt : option jval -> option jval -> bool.

Definition run_op (i : nat) (s : Searcher.searcher) (h : heap) (o : op) (t : table)
  : table * heap :=
  let gf := getField_at i in
  match o with
  | OClear => (clear t, h)
  | OSetData rows clr => _setData gf key_lt s h rows clr t
  | OSetFilter f => (setFilter gf key_lt s h f t, h)
  | OSetSort fld => (setSort gf key_lt h fld t, h)
  | OSelect r => _selectRow h t r
  | ORefresh => refresh gf key_lt s h t
  end.

(** Apply [o] to the table at position [i]. *)
Fixpoint on_table (i : nat) (s : Searcher.searcher) (h : heap) (o : op)
  (ts : list table) (k : nat) : list table * heap :=
  match ts with
  | [] => ([], h)
  | t :: ts' =>
      if Nat.eqb k i then let '(t', h') := run_op i s h o t in (t' :: ts', h')
      else let '(ts'', h') := on_table i s h o ts' (S k) in (t :: ts'', h')
  end.

(** [tab.table.setFilter(func_of k)] for every tab, in order. *)
Fixpoint filter_all (s : Searcher.searcher) (h : heap) (func_of : nat -> option filt)
  (ts : list table) (k : nat) : list table :=
  match ts with
  | [] => []
  | t :: ts' =>
      setFilter (getField_at k) key_lt s h (func_of k) t
        :: filter_all s h func_of ts' (S k)
  end.

(** [Tabs.searchAll()] with [text] the search box value. *)
Definition searchAll (text : option string) (w : world) : world :=
  let s := Searcher.setSearch text in
  mk_world (w_heap w) s (filter_all s (w_heap w) (fun _ => Some FSearch) (tables w) 0).

(** [Tabs.searchCurrent()] with [current] the position of the active
    tab. *)
Definition searchCurrent (text : option string) (current : nat) (w : world) : world :=
  let s := Searcher.setSearch text in
  let truthy := match text with Some (String _ _) => true | _ => false end in
  mk_world (w_heap w) s
    (filter_all s (w_heap w)
       (fun k => if truthy && Nat.eqb k current then Some FSearch else None)
       (tables w) 0).

Inductive wevent :=
| ETable (i : nat) (o : op)
| ESearchAll (text : option string)
| ESearchCurrent (text : option string) (current : nat).

Definition wstep (w : world) (e : wevent) : world :=
  match e with
  | ETable i o =>
      let '(ts, h) := on_table i (searcher w) (w_heap w) o (tables w) 0 in
      mk_world h (searcher w) ts
  | ESearchAll text => searchAll text w
  | ESearchCurrent text cur => searchCurrent text cur w
  end.

Definition wrun (w : world) (es : list wevent) : world := fold_left wstep es w.
End WithKeys.

End TabsModel.

(* ------------------------------------------------------------------ *)
(** ** Auxiliary definitions used in the statements *)

Section JvalInd.
Variable P : jval -> Prop.
Hypothesis HNull : P JNull.
Hypothesis HBool : forall b, P (JBool b).
Hypothesis HNum : forall z, P (JNum z).
Hypothesis HStr : forall s, P (JStr s).
Hypothesis HArr : forall l, Forall P l -> P (JArr l).
Hypothesis HObj : forall o, Forall (fun kv => P (snd kv)) o -> P (JObj o).

(** Induction on values through their nested lists. *)
Fixpoint jval_ind' (v : jval) : P v :=
  match v with
  | JNull => HNull
  | JBool b => HBool b
  | JNum z => HNum z
  | JStr s => HStr s
  | JArr l =>
      HArr l ((fix go (l : list jval) : Forall P l :=
                 match l with
                 | [] => Forall_nil _
                 | x :: l' => Forall_cons _ (jval_ind' x) (go l')
                 end) l)
  | JObj o =>
      HObj o ((fix go (o : list (string * jval)) : Forall (fun kv => P (snd kv)) o :=
                 match o with
                 | [] => Forall_nil _
                 | (k, x) :: o' => Forall_cons (P := fun kv => P (snd kv)) (k, x) (jval_ind' x) (go o')
                 end) o)
  end.
End JvalInd.

(** Structural equality of values. *)
Fixpoint jval_eqb (a b : jval) : bool :=
  match a, b with
  | JNull, JNull => true
  | JBool x, JBool y => Bool.eqb x y
  | JNum x, JNum y => Z.eqb x y
  | JStr x, JStr y => String.eqb x y
  | JArr l1, JArr l2 =>
      (fix go (l1 l2 : list jval) : bool :=
         match l1, l2 with
         | [], [] => true
         | x :: l1', y :: l2' => jval_eqb x y && go l1' l2'
         | _, _ => false
         end) l1 l2
  | JObj o1, JObj o2 =>
      (fix go (o1 o2 : list (string * jval)) : bool :=
         match o1, o2 with
         | [], [] => true
         | (k1, x) :: o1', (k2, y) :: o2' => String.eqb k1 k2 && jval_eqb x y && go o1' o2'
         | _, _ => false
         end) o1 o2
  | _, _ => false
  end.

Definition opt_jval_eqb (a b : option jval) : bool :=
  match a, b with
  | None, None => true
  | Some x, Some y => jval_eqb x y
  | _, _ => false
  end.

(** Some string value is reachable from [v] through nested objects (under
    keys not starting with "_") and arrays. *)
Fixpoint has_string (v : jval) : bool :=
  match v with
  | JStr _ => true
  | JArr l =>
      (fix any (l : list jval) : bool :=
         match l with [] => false | x :: l' => has_string x || any l' end) l
  | JObj o =>
      (fix any (o : list (string * jval)) : bool :=
         match o with
         | [] => false
         | (k, x) :: o' => (negb (is_private k) && has_string x) || any o'
         end) o
  | _ => false
  end.

Definition has_string_obj (o : obj) : bool := has_string (JObj o).

(** [<] on numeric keys (other keys unordered), the comparison used in the
    concrete scenarios. *)
Definition number_lt (a b : option jval) : bool :=
  match a, b with
  | Some (JNum x), Some (JNum y) => Z.ltb x y
  | _, _ => false
  end.

(** [v] with every string value lowercased (keys unchanged). *)
Fixpoint lower_vals (v : jval) : jval :=
  match v with
  | JStr s => JStr (lower s)
  | JArr l => JArr (map lower_vals l)
  | JObj o =>
      JObj ((fix go (o : list (string * jval)) :=
               match o with
               | [] => []
               | (k, x) :: o' => (k, lower_vals x) :: go o'
               end) o)
  | _ => v
  end.

Module GuardInv.
Import RefreshGuard.

(** Either nothing is in flight and the guard is down, or exactly one
    aggregate is in flight, it is [_refreshPromise] and the guard is up;
    the promise kept is older than [next]. *)
Definition GInv (g : guard) : Prop :=
  ((pending g = [] /\ _refreshing g = false) \/
   (exists p, pending g = [p] /\ _refreshing g = true /\ _refreshPromise g = Some p)) /\
  (forall q, _refreshPromise g = Some q -> q < next g).
End GuardInv.

Module TableInv.
Import Table.

(** The invariant of the spec: the shown rows are rows of [data], there
    are at most [max_size] of them, and the selected row is a row of
    [data]. *)
Definition Inv (t : table) : Prop :=
  incl (_shownData t) (data t) /\
  shown t = List.length (_shownData t) /\ shown t <= max_size t /\
  (forall r, _selected t = Some r -> In r (data t)).

(** Its part about the shown rows. *)
Definition ShownInv (t : table) : Prop :=
  incl (_shownData t) (data t) /\
  shown t = List.length (_shownData t) /\ shown t <= max_size t.

(** Only the selected row carries the [_selected] flag. *)
Definition FlagInv (h : heap) (t : table) : Prop :=
  forall r, get "_selected" (h r) <> None -> _selected t = Some r.

Definition flagged (h : heap) (r : ref) : bool :=
  match get "_selected" (h r) with Some _ => true | None => false end.

(** Tables whose filter is the search show only rows holding a string. *)
Definition SearchInv (h : heap) (t : table) : Prop :=
  filter t = Some FSearch -> Forall (fun r => has_string_obj (h r) = true) (_shownData t).

(** Two stores whose objects hold strings alike. *)
Definition HS (h h' : heap) : Prop := forall r, has_string_obj (h' r) = has_string_obj (h r).

(** [total] counts the rows of [data]. *)
Definition TotInv (t : table) : Prop := total t = List.length (data t).
End TableInv.

Module WorldInv.
Import Table TableInv TabsModel.

(** Every table of the world whose filter is the search shows only rows
    holding a string. *)
Definition WInv (w : world) : Prop := Forall (SearchInv (w_heap w)) (tables w).
End WorldInv.

(* ------------------------------------------------------------------ *)
(** ** JavaScript truthiness and conversions used by the views *)

(** [if v:] compiles to [if (v)]: JavaScript truthiness ([[]] and [{}]
    are true). *)
Definition js_truthy (v : jval) : bool :=
  match v with
  | JNull => false
  | JBool b => b
  | JNum z => negb (Z.eqb z 0)
  | JStr s => negb (String.eqb s "")
  | JArr _ | JObj _ => true
  end.

(** Truthiness of a property value; [None] is [undefined]. *)
Definition opt_truthy (v : option jval) : bool :=
  match v with Some x => js_truthy x | None => false end.

(** JavaScript's ToString, as [+] on a string and [Array.prototype.join]
    apply it; [join] writes [null] elements as the empty string. *)
Fixpoint js_to_string (v : jval) : string :=
  match v with
  | JNull => "null"
  | JBool true => "true"
  | JBool false => "false"
  | JNum z => z_to_string z
  | JStr s => s
  | JArr l =>
      join ","
        ((fix elems (l : list jval) : list string :=
            match l with
            | [] => []
            | JNull :: l' => "" :: elems l'
            | x :: l' => js_to_string x :: elems l'
            end) l)
  | JObj _ => "[object Object]"
  end.

(** [sep.join(l)] on a list: [Array.prototype.join] with separator [sep]. *)
Definition array_join (sep : string) (l : list jval) : string :=
  join sep (map (fun x => match x with JNull => "" | _ => js_to_string x end) l).

(* ------------------------------------------------------------------ *)
(** ** [Table._view], [Table._makeRow] and [Table._limitText] *)

Module View.
Import Fields Table.

(** An attribute value of a vnode: a string, or one of the two event
    handlers of the table ([lambda event: self.setSort(f)] and
    [lambda event: self._selectRow(event, o)]). *)
Inductive attr_val := AStr (s : string) | ASetSort (f : field) | ASelectRow (r : ref).

(** [m(selector, attrs, children)] *)
Inductive vnode :=
| VElem (sel : string) (attrs : list (string * attr_val)) (children : list vnode)
| VText (s : string).

Definition td_node (c : td) : vnode :=
  VElem "td" (map (fun kv => (fst kv, AStr (snd kv))) (td_attrs c)) [VText (td_text c)].

Section Render.
(** [self._getField(obj, field)] of the table; [None] when it raises. *)
Variable _getField : obj -> field -> option (option jval).

(** [[field.view(self._getField(obj, field)) for field in fs]];
    [None] when one of the calls raises. *)
Fixpoint make_cells (o : obj) (fs : list field) : option (list vnode) :=
  match fs with
  | [] => Some []
  | f :: fs' =>
      match _getField o f with
      | None => None
      | Some d =>
          match view (kind f) d with
          | None => None
          | Some c =>
              match make_cells o fs' with
              | None => None
              | Some cs => Some (td_node c :: cs)
              end
          end
      end
  end.

(** [Table._makeRow(obj)] *)
Definition _makeRow (t : table) (o : obj) : option (list vnode) := make_cells o (fields t).

(** [Table._limitText()]: ["Limited to {} results.".format(self.max_size)]. *)
Definition _limitText (t : table) : string :=
  "Limited to " ++ z_to_string (Z.of_nat (max_size t)) ++ " results.".

Definition no_results_text : string := "No results found.".

Definition arrow (rev_ : bool) : vnode :=
  VElem (if rev_ then "i.arrow.down.icon" else "i.arrow.up.icon") [] [].

(** The header of [field] built by the first loop of [_view]. *)
Definition header (t : table) (f : field) : vnode :=
  if opt_field_eqb (sortField t) f then
    VElem "th.ui.right.labeled.icon" [("onclick", ASetSort f)]
      [arrow (reversed t); VText (title f)]
  else VElem "th" [("onclick", ASetSort f)] [VText (title f)].

Definition _view_headers (t : table) : list vnode := map (header t) (fields t).

(** The second loop of [_view], over [self._shownData]. *)
Fixpoint data_rows (h : heap) (t : table) (rs : list ref) : option (list vnode) :=
  match rs with
  | [] => Some []
  | r :: rs' =>
      match _makeRow t (h r) with
      | None => None
      | Some row =>
          let sel := if opt_truthy (get "_selected" (h r)) then "tr.active" else "tr" in
          match data_rows h t rs' with
          | None => None
          | Some vs => Some (VElem sel [("onclick", ASelectRow r)] row :: vs)
          end
      end
  end.

Definition limit_row (t : table) : vnode :=
  VElem "tr" [] [VElem "td" [] [VText (_limitText t)]].

Definition no_results_row : vnode :=
  VElem "tr" [] [VElem "td" [] [VText no_results_text]].

(** The [rows] of [_view]. *)
Definition _view_rows (h : heap) (t : table) : option (list vnode) :=
  match data_rows h t (_shownData t) with
  | None => None
  | Some body =>
      Some (body ++ (if Nat.leb (max_size t) (shown t) then [limit_row t] else [])
                 ++ (if Nat.eqb (shown t) 0 then [no_results_row] else []))%list
  end.

(** [Table._view()]; [None] when it raises. *)
Definition _view (h : heap) (t : table) : option vnode :=
  match _view_rows h t with
  | None => None
  | Some rows =>
      Some (VElem "table"
              [("class", AStr "ui selectable celled unstackable single line left aligned table")]
              [VElem "thead" [] [VElem "tr" [("class", AStr "center aligned")] (_view_headers t)];
               VElem "tbody" [] rows])
  end.
End Render.

(** [Table._getField] of the base class, which does not raise. *)
Definition base_getField_r (o : obj) (f : field) : option (option jval) :=
  Some (base_getField o f).

(** The headers showing a sort arrow. *)
Definition sort_headers (hs : list vnode) : list vnode :=
  List.filter (fun v => match v with
                        | VElem sel _ _ => String.eqb sel "th.ui.right.labeled.icon"
                        | VText _ => false
                        end) hs.

(** The rows drawn highlighted ([tr.active]), by the row their click
    selects. *)
Definition active_rows (rows : list vnode) : list ref :=
  flat_map (fun v => match v with
                     | VElem sel [(_, ASelectRow r)] _ =>
                         if String.eqb sel "tr.active" then [r] else []
                     | _ => []
                     end) rows.

End View.

(* ------------------------------------------------------------------ *)
(** ** The [_getField] overrides of [EntitiesTable] and [AnonMsgsTable] *)

Module Getters.
Import Fields.

(** [obj.k] where [obj] is a property value: reading a property of
    [undefined] or [null] raises ([None]); the values of this model other
    than objects have no property [k] other than the ones they inherit,
    which these keys are not. *)
Definition prop (v : option jval) (k : string) : option (option jval) :=
  match v with
  | None | Some JNull => None
  | Some (JObj o) => Some (get k o)
  | Some _ => Some None
  end.

Section Entities.
(** [len(x)] of the runtime on a truthy value that is neither a list nor
    a string, and [" ".join(x)] on a value that is not a list ([None] when
    it raises): both depend on the version of the Transcrypt runtime, and
    are left open. *)
Variable len_other : jval -> jval.
Variable join_other : jval -> option string.

(** [len(x)] *)
Definition len (x : jval) : jval :=
  match x with
  | JArr l => JNum (Z.of_nat (List.length l))
  | JStr s => JNum (Z.of_nat (String.length s))
  | _ => len_other x
  end.

(** [if x: return len(x) else: return ""] *)
Definition count_or_empty (x : option jval) : option jval :=
  match x with
  | Some v => if js_truthy v then Some (len v) else Some (JStr "")
  | None => Some (JStr "")
  end.

(** [EntitiesTable._getField(obj, field)]; [None] when it raises. *)
Definition entities_getField (o : obj) (f : field) : option (option jval) :=
  if String.eqb (name f) "issuants" then Some (count_or_empty (get "issuants" o))
  else if String.eqb (name f) "keys" then Some (count_or_empty (get "keys" o))
  else if String.eqb (name f) "data" then
    let d := get "data" o in
    (* d and d.keywords and d.message *)
    if opt_truthy d then
      match prop d "keywords" with
      | None => None
      | Some kw =>
          if opt_truthy kw then
            match prop d "message" with
            | None => None
            | Some msg =>
                if opt_truthy msg then
                  (* data = " ".join(d.keywords); return data + " " + d.message *)
                  match kw, msg with
                  | Some (JArr l), Some m => Some (Some (JStr (array_join " " l ++ " " ++ js_to_string m)))
                  | Some x, Some m =>
                      match join_other x with
                      | Some j => Some (Some (JStr (j ++ " " ++ js_to_string m)))
                      | None => None
                      end
                  | _, _ => Some (Some (JStr ""))
                  end
                else Some (Some (JStr ""))
            end
          else Some (Some (JStr ""))
      end
    else Some (Some (JStr ""))
  else Some (get (name f) o).
End Entities.

(** [AnonMsgsTable._getField(obj, field)]; [None] when it raises. *)
Definition anon_getField (o : obj) (f : field) : option (option jval) :=
  if String.eqb (name f) "uid" then prop (get "anon" o) "uid"
  else if String.eqb (name f) "date" then prop (get "anon" o) "date"
  else if String.eqb (name f) "content" then prop (get "anon" o) "content"
  else if String.eqb (name f) "created" then Some (get "create" o)
  else Some (get (name f) o).

End Getters.

(* ------------------------------------------------------------------ *)
(** ** [Tabs.currentTab] and [Tabs.searchCurrent] *)

Module CurrentTab.
Import Fields Table TabsModel.

(** [tab.Data_tab] for the tabs of [Tabs.tabs], in order. *)
Definition Data_tabs : list string := ["entities"; "issuants"; "offers"; "messages"; "anonmsgs"].

Definition data_tab (k : nat) : string := nth k Data_tabs "".

(** [Tabs.currentTab()], with [active] the [data-tab] attribute of the
    active menu item ([None] when there is none: [undefined]); the result
    is the position of the tab found. *)
Definition currentTab (active : option string) : option nat :=
  match active with
  | None => None
  | Some a =>
      (fix find (k : nat) (l : list string) : option nat :=
         match l with
         | [] => None
         | d :: l' => if String.eqb d a then Some k else find (S k) l'
         end) 0 Data_tabs
  end.

Section WithKeys.
Variable getField_at : nat -> obj -> field -> option jval.
Variable key_lt : option jval -> option jval -> bool.

(** The loop of [searchCurrent] from the tab at position [k]; the flag is
    set when the loop raises ([current.Data_tab] with [current = None]),
    and the tables from the raising one on are left as they are. *)
Fixpoint search_loop (s : Searcher.searcher) (h : heap) (truthy : bool)
  (current : option nat) (ts : list table) (k : nat) : list table * bool :=
  match ts with
  | [] => ([], false)
  | t :: ts' =>
      let cond := if truthy then
                    match current with
                    | None => None
                    | Some c => Some (String.eqb (data_tab k) (data_tab c))
                    end
                  else Some false in
      match cond with
      | None => (ts, true)
      | Some b =>
          let t' := setFilter (getField_at k) key_lt s h (if b then Some FSearch else None) t in
          let '(ts'', e) := search_loop s h truthy current ts' (S k) in
          (t' :: ts'', e)
      end
  end.

(** [Tabs.searchCurrent()] with [text] the search box value and [active]
    the [data-tab] of the active menu item; the flag tells whether it
    raised. *)
Definition searchCurrent (text : option string) (active : option string) (w : world)
  : world * bool :=
  let s := Searcher.setSearch text in
  let current := currentTab active in
  let truthy := match text with Some (String _ _) => true | _ => false end in
  let '(ts, e) := search_loop s (w_heap w) truthy current (tables w) 0 in
  (mk_world (w_heap w) s ts, e).
End WithKeys.

End CurrentTab.


(* ------------------------------------------------------------------ *)
(** ** Concrete tables used in the scenarios *)

Module Scenarios.
Import Fields Table.

Definition uidF : field := TabsModel.mkf 100 (KID "") "UID" None.
Definition dateF : field := TabsModel.mkf 101 KDate "Date" None.

(** Rows [{uid:"a",date:1}], [{uid:"b",date:3}], [{uid:"c",date:2}]. *)
Definition abc_heap : heap :=
  fun r => match r with
           | 0 => [("uid", JStr "a"); ("date", JNum 1)]
           | 1 => [("uid", JStr "b"); ("date", JNum 3)]
           | 2 => [("uid", JStr "c"); ("date", JNum 2)]
           | _ => []
           end.

Definition abc_loaded : table * heap :=
  _setData base_getField number_lt Searcher.init abc_heap [0; 1; 2] true
    (Table.init [uidF; dateF]).





(** One row whose [uid] is a number. *)
Definition numuid_heap : heap :=
  fun r => match r with
           | 0 => [("uid", JNum 7); ("date", JNum 1)]
           | _ => []
           end.

Definition numuid_loaded : table * heap :=
  _setData base_getField number_lt Searcher.init numuid_heap [0] true (Table.init [uidF; dateF]).

(** An anonymous message with no [anon] part. *)
Definition noanon_heap : heap :=
  fun r => match r with
           | 0 => [("create", JNum 5000); ("expire", JNum 9000)]
           | _ => []
           end.

Definition noanon_loaded : table * heap :=
  _setData base_getField number_lt Searcher.init noanon_heap [0] true
    (Table.init TabsModel.anonmsgs_fields).
End Scenarios.

(* ================================================================== *)
(** * Properties *)

Lemma get_set_prop : forall k v o, get k (set_prop k v o) = Some v.
Proof.
  intros k v o; induction o as [|[k' v'] o IH]; simpl.
  - rewrite String.eqb_refl; reflexivity.
  - destruct (String.eqb k k') eqn:E; simpl.
    + rewrite String.eqb_refl; reflexivity.
    + rewrite E; exact IH.
Qed.

Module TableFacts.
Import Fields Table TableInv.
Local Open Scope list_scope.

Lemma set_data_twice : forall t d1 n1 d2 n2,
  set_data (set_data t d1 n1) d2 n2 = set_data t d2 n2.
Proof. intros [] ? ? ? ?; reflexivity. Qed.

Lemma set_shownData_twice : forall t d1 n1 d2 n2,
  set_shownData (set_shownData t d1 n1) d2 n2 = set_shownData t d2 n2.
Proof. intros [] ? ? ? ?; reflexivity. Qed.

Lemma nodup_app_disjoint : forall (l1 l2 : list ref) a,
  NoDup (l1 ++ l2) -> In a l1 -> In a l2 -> False.
Proof.
  induction l1 as [|x l1 IH]; intros l2 a Hnd H1 H2; [destruct H1|].
  simpl in Hnd; inversion Hnd as [|? ? Hnin Hnd']; subst.
  destruct H1 as [<-|H1].
  - apply Hnin, in_or_app; right; exact H2.
  - exact (IH l2 a Hnd' H1 H2).
Qed.

Section Facts.
Variable gf : obj -> field -> option jval.
Variable klt : option jval -> option jval -> bool.

Lemma accept_loop_spec : forall P max rows acc n,
  n = List.length acc -> n <= max ->
  accept_loop P max rows acc n =
    (acc ++ firstn (max - n) (List.filter P rows),
     n + List.length (firstn (max - n) (List.filter P rows))).
Proof.
  intros P max rows; induction rows as [|r rows IH]; intros acc n Hn Hle; simpl.
  - rewrite firstn_nil, app_nil_r; simpl; f_equal; lia.
  - destruct (Nat.leb max n) eqn:E.
    + apply Nat.leb_le in E. replace (max - n) with 0 by lia; simpl.
      rewrite app_nil_r; f_equal; lia.
    + apply Nat.leb_gt in E. destruct (P r) eqn:Pr.
      * rewrite IH by (rewrite ?length_app; simpl; lia).
        replace (max - n) with (S (max - S n)) by lia; simpl.
        rewrite <- app_assoc; simpl; f_equal; lia.
      * apply IH; auto.
Qed.

Lemma sortData_eq : forall h t,
  _sortData gf klt h t = set_shownData t (sorted_shown gf klt h t) (shown t).
Proof.
  intros h t; unfold _sortData, sorted_shown.
  destruct (sortField t); [reflexivity | destruct t; reflexivity].
Qed.

Lemma select_shown_eq : forall s h t,
  select_shown s h t =
    (firstn (max_size t) (List.filter (accepts s h t) (data t)),
     List.length (firstn (max_size t) (List.filter (accepts s h t) (data t)))).
Proof.
  intros s h t; unfold select_shown, clearArray.
  rewrite accept_loop_spec by (simpl; lia).
  rewrite Nat.sub_0_r; reflexivity.
Qed.

Lemma processData_eq : forall s h t,
  let acc := firstn (max_size t) (List.filter (accepts s h t) (data t)) in
  _processData gf klt s h t =
    set_shownData t (sorted_shown gf klt h (set_shownData t acc (List.length acc)))
      (List.length acc).
Proof.
  intros s h t acc; unfold _processData.
  rewrite select_shown_eq, sortData_eq, set_shownData_twice; reflexivity.
Qed.

Lemma add_rows_table : forall rows h t,
  fst (add_rows h t rows) = set_data t (data t ++ rows) (total t + List.length rows).
Proof.
  induction rows as [|r rows IH]; intros h t; simpl.
  - rewrite app_nil_r, Nat.add_0_r; destruct t; reflexivity.
  - rewrite IH, set_data_twice; simpl.
    rewrite <- app_assoc; f_equal; lia.
Qed.

Lemma add_rows_frame : forall rows h t r,
  ~ In r rows -> snd (add_rows h t rows) r = h r.
Proof.
  induction rows as [|r' rows IH]; intros h t r Hr; simpl; [reflexivity|].
  rewrite IH by (simpl in Hr; tauto).
  unfold upd. destruct (Nat.eqb r r') eqn:E; [|reflexivity].
  apply Nat.eqb_eq in E; subst; simpl in Hr; tauto.
Qed.

Lemma add_rows_uids : forall rows h t,
  NoDup rows ->
  map (fun r => get "_uid" (snd (add_rows h t rows) r)) rows =
    map (fun i => Some (JNum (Z.of_nat i))) (seq (total t) (List.length rows)).
Proof.
  induction rows as [|r rows IH]; intros h t Hnd; simpl; [reflexivity|].
  inversion Hnd as [|? ? Hnin Hnd']; subst.
  rewrite add_rows_frame by exact Hnin.
  unfold upd at 1; rewrite Nat.eqb_refl, get_set_prop.
  f_equal. exact (IH _ (set_data t (data t ++ [r]) (S (total t))) Hnd').
Qed.

Lemma processData_fields : forall s h t,
  data (_processData gf klt s h t) = data t /\
  total (_processData gf klt s h t) = total t /\
  max_size (_processData gf klt s h t) = max_size t /\
  filter (_processData gf klt s h t) = filter t /\
  _selected (_processData gf klt s h t) = _selected t.
Proof. intros s h t; rewrite processData_eq; repeat split. Qed.

Lemma setData_unfold : forall s h (rows : list ref) (clr : bool) t,
  let t1 := if clr then clear t else t in
  _setData gf klt s h rows clr t =
    (_processData gf klt s (snd (add_rows h t1 rows))
       (set_data t1 (data t1 ++ rows) (total t1 + List.length rows)),
     snd (add_rows h t1 rows)).
Proof.
  intros s h rows clr t t1; unfold _setData; fold t1.
  rewrite <- (add_rows_table rows h t1); destruct (add_rows h t1 rows); reflexivity.
Qed.

Lemma setData_frame : forall s h (rows : list ref) (clr : bool) t r,
  ~ In r rows -> snd (_setData gf klt s h rows clr t) r = h r.
Proof.
  intros s h rows clr t r Hr; rewrite setData_unfold; simpl.
  apply add_rows_frame; exact Hr.
Qed.

(** [_setData] appends the rows (after emptying [data] when asked to),
    counts them in [total], and gives the rows the ids [base],
    [base + 1], ..., with [base] the total it starts from. *)
Lemma setData_facts : forall s h (rows : list ref) (clr : bool) t,
  NoDup rows ->
  let base := if clr then 0 else total t in
  data (fst (_setData gf klt s h rows clr t)) = (if clr then [] else data t) ++ rows /\
  total (fst (_setData gf klt s h rows clr t)) = base + List.length rows /\
  map (fun r => get "_uid" (snd (_setData gf klt s h rows clr t) r)) rows =
    map (fun i => Some (JNum (Z.of_nat i))) (seq base (List.length rows)).
Proof.
  intros s h rows clr t Hnd base.
  rewrite setData_unfold; simpl.
  destruct (processData_fields s (snd (add_rows h (if clr then clear t else t) rows))
              (set_data (if clr then clear t else t)
                 (data (if clr then clear t else t) ++ rows)
                 (total (if clr then clear t else t) + List.length rows)))
    as [Hd [Ht _]].
  rewrite Hd, Ht; simpl.
  rewrite (add_rows_uids rows h _ Hnd).
  unfold base; destruct clr; simpl; auto.
Qed.

Lemma setSort_shape : forall h F t,
  let t1 := setSort gf klt h F t in
  (exists f, sortField t1 = Some f /\
     _shownData t1 = py_sort (fun r => gf (h r) f) klt (reversed t1) (_shownData t)) /\
  data t1 = data t /\ shown t1 = shown t /\
  (opt_field_eqb (sortField t) F = false -> sortField t1 = Some F /\ reversed t1 = false) /\
  (opt_field_eqb (sortField t) F = true ->
     sortField t1 = sortField t /\ reversed t1 = negb (reversed t)) /\
  opt_field_eqb (sortField t1) F = true.
Proof.
  intros h F t t1; unfold t1, setSort.
  destruct (opt_field_eqb (sortField t) F) eqn:E.
  - destruct (sortField t) as [F'|] eqn:Es; [|discriminate].
    unfold _sortData; simpl.
    split; [exists F'; split; reflexivity|].
    split; [reflexivity|]. split; [reflexivity|].
    split; [intros; discriminate|]. split; [auto|exact E].
  - unfold _sortData; simpl.
    split; [exists F; split; reflexivity|].
    split; [reflexivity|]. split; [reflexivity|].
    split; [auto|]. split; [intros; discriminate|].
    apply Nat.eqb_refl.
Qed.
End Facts.
End TableFacts.

Module TableClaims.
Import Fields Table TableInv TableFacts.
Local Open Scope list_scope.

(** C1: after [_processData], the shown subsequence (before the sort pass)
    is the insertion-ordered prefix of [data] of the rows the filter
    accepts (all rows when no filter is set), cut at [max_size] accepted
    rows, [shown] is its length, and the sort pass is applied to it. *)
Theorem shown_is_filtered_prefix :
  forall (gf : obj -> field -> option jval) klt s h t,
    let acc := firstn (max_size t) (List.filter (accepts s h t) (data t)) in
    select_shown s h t = (acc, List.length acc) /\
    (filter t = None -> acc = firstn (max_size t) (data t)) /\
    _processData gf klt s h t = _sortData gf klt h (set_shownData t acc (List.length acc)) /\
    shown (_processData gf klt s h t) = List.length acc.
Proof.
  intros gf klt s h t acc.
  assert (Hsel : select_shown s h t = (acc, List.length acc)) by apply select_shown_eq.
  split; [exact Hsel|]. split.
  - intros Hf. unfold acc, accepts. rewrite Hf. f_equal.
    clear. induction (data t) as [|r l IH]; simpl; congruence.
  - unfold _processData. rewrite Hsel. split; [reflexivity|].
    rewrite sortData_eq; reflexivity.
Qed.
End TableClaims.

Module TableClaims2.
Import Fields Table TableInv TableFacts.
Local Open Scope list_scope.

(** C8: after [_setData(rows, clear=True)] the table holds exactly [rows],
    [total] is their number and their ids are 0, 1, ..., in order; in
    general every incoming row gets as id the [total] at its insertion. *)
Theorem setData_assigns_ids :
  forall (gf : obj -> field -> option jval) klt s h (rows : list ref) (clr : bool) t,
    NoDup rows ->
    let base := if clr then 0 else total t in
    data (fst (_setData gf klt s h rows clr t)) = (if clr then [] else data t) ++ rows /\
    total (fst (_setData gf klt s h rows clr t)) = base + List.length rows /\
    map (fun r => get "_uid" (snd (_setData gf klt s h rows clr t) r)) rows =
      map (fun i => Some (JNum (Z.of_nat i))) (seq base (List.length rows)).
Proof. intros; apply setData_facts; assumption. Qed.

Lemma setData_assigns_ids_witness :
  NoDup [0; 1; 2] /\
  data (fst (_setData base_getField number_lt Searcher.init (fun _ => []) [0; 1; 2] true
               (Table.init []))) = [] ++ [0; 1; 2] /\
  total (fst (_setData base_getField number_lt Searcher.init (fun _ => []) [0; 1; 2] true
                (Table.init []))) = 0 + 3 /\
  map (fun r => get "_uid" (snd (_setData base_getField number_lt Searcher.init
                                    (fun _ => []) [0; 1; 2] true (Table.init [])) r))
    [0; 1; 2] = map (fun i => Some (JNum (Z.of_nat i))) (seq 0 3).
Proof.
  assert (H : NoDup [0; 1; 2]) by (repeat constructor; simpl; intuition discriminate).
  split; [exact H|].
  exact (setData_assigns_ids base_getField number_lt Searcher.init (fun _ => [])
           [0; 1; 2] true (Table.init []) H).
Defined.

(** C4 (as stated): the shown subsequence would be derived once, after
    both batches.  It is already derived after the first batch: here the
    rows of the first batch are shown before the second batch arrives. *)
Lemma entities_refresh_shown_after_first_batch :
  let t0 := clear (Table.init TabsModel.entities_fields) in
  let t1 := fst (_setData base_getField number_lt Searcher.init (fun _ => [])
                   [0; 1; 2] false t0) in
  _shownData t1 = [0; 1; 2] /\ shown t1 = 3 /\ _shownData t1 <> _shownData t0.
Proof. vm_compute. split; [reflexivity | split; [reflexivity | discriminate]]. Qed.

(** C4 (amended): [EntitiesTable.refresh] clears the table, then each
    batch is added by a non-clearing [_setData], which re-derives the shown
    subsequence ([_processData]) after each batch; after a batch of 3 and a
    batch of 2 rows, [total] is 5, [data] holds the 5 rows in arrival order
    and their ids are 0..4. *)
Theorem entities_refresh_two_batches :
  forall (gf : obj -> field -> option jval) klt s h t b1 b2,
    List.length b1 = 3 -> List.length b2 = 2 -> NoDup (b1 ++ b2) ->
    let r1 := _setData gf klt s h b1 false (clear t) in
    let r2 := _setData gf klt s (snd r1) b2 false (fst r1) in
    fst r1 = _processData gf klt s (snd r1) (set_data (clear t) b1 3) /\
    fst r2 = _processData gf klt s (snd r2) (set_data (fst r1) (b1 ++ b2) 5) /\
    total (fst r2) = 5 /\ data (fst r2) = b1 ++ b2 /\
    map (fun r => get "_uid" (snd r2 r)) (b1 ++ b2) =
      map (fun i => Some (JNum (Z.of_nat i))) (seq 0 5).
Proof.
  intros gf klt s h t b1 b2 H1 H2 Hnd r1 r2.
  assert (Hnd1 : NoDup b1) by (apply NoDup_app_remove_r in Hnd; exact Hnd).
  assert (Hnd2 : NoDup b2) by (apply NoDup_app_remove_l in Hnd; exact Hnd).
  destruct (setData_facts gf klt s h b1 false (clear t) Hnd1) as [D1 [T1 U1]].
  destruct (setData_facts gf klt s (snd r1) b2 false (fst r1) Hnd2) as [D2 [T2 U2]].
  fold r1 in D1, T1, U1. fold r2 in D2, T2, U2. simpl in *.
  assert (Ht1 : fst r1 = _processData gf klt s (snd r1) (set_data (clear t) b1 3)).
  { unfold r1; rewrite setData_unfold; simpl; rewrite H1; reflexivity. }
  split; [exact Ht1|].
  split.
  { unfold r2; rewrite setData_unfold; simpl. rewrite D1, T1, H1, H2; reflexivity. }
  rewrite D2, T2, D1, T1, H1, H2. split; [reflexivity|]. split; [reflexivity|].
  rewrite map_app, U2, T1, H1, H2.
  replace (map (fun r => get "_uid" (snd r2 r)) b1)
    with (map (fun r => get "_uid" (snd r1 r)) b1).
  - rewrite U1, H1; reflexivity.
  - apply map_ext_in; intros r Hr. unfold r2.
    rewrite setData_frame; [reflexivity|].
    intros Hr2. exact (nodup_app_disjoint b1 b2 r Hnd Hr Hr2).
Qed.
Lemma entities_refresh_two_batches_witness :
  List.length [0; 1; 2] = 3 /\ List.length [3; 4] = 2 /\ NoDup ([0; 1; 2] ++ [3; 4]) /\
  (let r1 := _setData base_getField number_lt Searcher.init (fun _ => []) [0; 1; 2] false
               (clear (Table.init TabsModel.entities_fields)) in
   let r2 := _setData base_getField number_lt Searcher.init (snd r1) [3; 4] false (fst r1) in
   fst r1 = _processData base_getField number_lt Searcher.init (snd r1)
              (set_data (clear (Table.init TabsModel.entities_fields)) [0; 1; 2] 3) /\
   fst r2 = _processData base_getField number_lt Searcher.init (snd r2)
              (set_data (fst r1) ([0; 1; 2] ++ [3; 4]) 5) /\
   total (fst r2) = 5 /\ data (fst r2) = [0; 1; 2] ++ [3; 4] /\
   map (fun r => get "_uid" (snd r2 r)) ([0; 1; 2] ++ [3; 4]) =
     map (fun i => Some (JNum (Z.of_nat i))) (seq 0 5)).
Proof.
  assert (Hnd : NoDup ([0; 1; 2] ++ [3; 4])) by (simpl; repeat constructor; simpl; intuition discriminate).
  split; [reflexivity|]. split; [reflexivity|]. split; [exact Hnd|].
  exact (entities_refresh_two_batches base_getField number_lt Searcher.init (fun _ => [])
           (Table.init TabsModel.entities_fields) [0; 1; 2] [3; 4] eq_refl eq_refl Hnd).
Defined.

End TableClaims2.

Lemma jval_eqb_eq : forall a b, jval_eqb a b = true -> a = b.
Proof.
  intros a; induction a using jval_ind'; intros b' Hb; destruct b'; simpl in Hb;
    try discriminate.
  - reflexivity.
  - apply Bool.eqb_prop in Hb; subst; reflexivity.
  - apply Z.eqb_eq in Hb; subst; reflexivity.
  - apply String.eqb_eq in Hb; subst; reflexivity.
  - revert l0 Hb. induction H as [|x l Hx Hl IH]; intros [|y l0] Hb; try discriminate.
    + reflexivity.
    + apply andb_prop in Hb as [Hxy Hrest].
      apply Hx in Hxy; subst y.
      specialize (IH l0 Hrest). injection IH as ->. reflexivity.
  - revert o0 Hb. induction H as [|[k x] o Hx Ho IH]; intros [|[k' y] o0] Hb; try discriminate.
    + reflexivity.
    + apply andb_prop in Hb as [Hb Hrest]. apply andb_prop in Hb as [Hk Hxy].
      apply String.eqb_eq in Hk; subst k'. simpl in Hx. apply Hx in Hxy; subst y.
      specialize (IH o0 Hrest). injection IH as ->. reflexivity.
Qed.

Lemma opt_jval_eqb_eq : forall a b, opt_jval_eqb a b = true -> a = b.
Proof.
  intros [a|] [b|] H; simpl in H; try discriminate; auto.
  apply jval_eqb_eq in H; subst; reflexivity.
Qed.

Module SortFacts.
Section S.
Context {A K : Type}.
Variable key : A -> K.
Variable lt : K -> K -> bool.

Lemma insert_perm : forall x l, Permutation (insert key lt x l) (x :: l).
Proof.
  intros x l; induction l as [|y l IH]; cbn [insert]; [reflexivity|].
  unfold comparator; destruct (lt (key y) (key x)); simpl; [|reflexivity].
  rewrite IH. apply perm_swap.
Qed.

Lemma js_sort_from_perm : forall l acc, Permutation (js_sort_from key lt acc l) (acc ++ l).
Proof.
  induction l as [|x l IH]; intros acc; simpl; [rewrite app_nil_r; reflexivity|].
  rewrite IH, insert_perm; simpl. apply Permutation_middle.
Qed.

Lemma py_sort_perm : forall rv l, Permutation (py_sort key lt rv l) l.
Proof.
  intros [] l; unfold py_sort, sort_then_reverse, js_sort;
    [rewrite <- Permutation_rev|]; rewrite js_sort_from_perm; reflexivity.
Qed.
End S.

End SortFacts.

Module SortClaims.
Import Fields Table TableFacts SortFacts Scenarios.
Local Open Scope list_scope.


End SortClaims.

Module InvFacts.
Import Fields Table TableInv TableFacts SortFacts.
Local Open Scope list_scope.

Lemma in_firstn : forall (n : nat) (l : list ref) r, In r (firstn n l) -> In r l.
Proof.
  intros n l r H. rewrite <- (firstn_skipn n l). apply in_or_app; left; exact H.
Qed.

Section Facts.
Variable gf : obj -> field -> option jval.
Variable klt : option jval -> option jval -> bool.

Lemma sorted_shown_perm : forall h t,
  Permutation (sorted_shown gf klt h t) (_shownData t).
Proof.
  intros h t; unfold sorted_shown.
  destruct (sortField t); [apply py_sort_perm | apply Permutation_refl].
Qed.

Lemma processData_ShownInv : forall s h t, ShownInv (_processData gf klt s h t).
Proof.
  intros s h t; rewrite processData_eq; unfold ShownInv; simpl.
  set (acc := firstn (max_size t) (List.filter (accepts s h t) (data t))).
  pose proof (sorted_shown_perm h (set_shownData t acc (List.length acc))) as P.
  simpl in P.
  split; [|split].
  - intros r Hr. apply (Permutation_in _ P) in Hr.
    apply in_firstn in Hr. apply filter_In in Hr. tauto.
  - symmetry; apply Permutation_length; exact P.
  - apply firstn_le_length.
Qed.

Lemma processData_Inv : forall s h t,
  (forall r, _selected t = Some r -> In r (data t)) -> Inv (_processData gf klt s h t).
Proof.
  intros s h t Hsel.
  destruct (processData_ShownInv s h t) as [H1 [H2 H3]].
  destruct (processData_fields gf klt s h t) as [Hd [_ [_ [_ Hs]]]].
  split; [exact H1|]. split; [exact H2|]. split; [exact H3|].
  rewrite Hs, Hd; exact Hsel.
Qed.

Lemma setData_data_selected : forall s h (rows : list ref) (clr : bool) t,
  data (fst (_setData gf klt s h rows clr t)) = (if clr then [] else data t) ++ rows /\
  _selected (fst (_setData gf klt s h rows clr t)) = _selected t.
Proof.
  intros s h rows clr t; rewrite setData_unfold; simpl.
  match goal with |- context [_processData gf klt s ?h' ?t'] =>
    destruct (processData_fields gf klt s h' t') as [Hd [_ [_ [_ Hs]]]] end.
  rewrite Hd, Hs. destruct clr; simpl; auto.
Qed.

Lemma setData_ShownInv : forall s h (rows : list ref) (clr : bool) t,
  ShownInv (fst (_setData gf klt s h rows clr t)).
Proof. intros; rewrite setData_unfold; apply processData_ShownInv. Qed.

Lemma setData_Inv : forall s h (rows : list ref) (clr : bool) t,
  Inv t -> (clr = false \/ _selected t = None) ->
  Inv (fst (_setData gf klt s h rows clr t)).
Proof.
  intros s h rows clr t [_ [_ [_ Hsel]]] Hc.
  destruct (setData_ShownInv s h rows clr t) as [H1 [H2 H3]].
  destruct (setData_data_selected s h rows clr t) as [Hd Hs].
  split; [exact H1|]. split; [exact H2|]. split; [exact H3|].
  rewrite Hs, Hd; intros r Hr.
  destruct Hc as [-> | Hn]; [apply in_or_app; left; auto | congruence].
Qed.

Lemma setFilter_Inv : forall s h f t, Inv t -> Inv (setFilter gf klt s h f t).
Proof.
  intros s h f t Hi; unfold setFilter.
  destruct (negb (opt_filt_eqb f (filter t))); [|exact Hi].
  apply processData_Inv. destruct Hi as [_ [_ [_ Hsel]]]; exact Hsel.
Qed.

Lemma setSort_frame : forall h F t,
  _selected (setSort gf klt h F t) = _selected t /\
  max_size (setSort gf klt h F t) = max_size t.
Proof.
  intros h F t; unfold setSort, _sortData.
  destruct (opt_field_eqb (sortField t) F); simpl;
    [destruct (sortField t); simpl|]; auto.
Qed.

Lemma setSort_Inv : forall h F t, Inv t -> Inv (setSort gf klt h F t).
Proof.
  intros h F t [H1 [H2 [H3 H4]]].
  destruct (setSort_shape gf klt h F t) as [[f [_ Hsd]] [Hd [Hs _]]].
  destruct (setSort_frame h F t) as [Hsel Hm].
  split; [|split; [|split]].
  - intros r Hr. rewrite Hsd in Hr. apply (Permutation_in _ (py_sort_perm _ _ _ _)) in Hr.
    rewrite Hd; auto.
  - rewrite Hs, Hsd, H2. symmetry; apply Permutation_length, py_sort_perm.
  - rewrite Hs, Hm; exact H3.
  - rewrite Hsel, Hd; exact H4.
Qed.
End Facts.

Lemma selectRow_cases : forall h t o,
  fst (_selectRow h t o) = set_selected t None "" \/
  exists d, fst (_selectRow h t o) = set_selected t (Some o) d.
Proof.
  intros h t o; unfold _selectRow.
  destruct (_selected t) as [sel|]; [destruct (loose_eq _ _)|]; simpl; eauto.
Qed.

Lemma selectRow_Inv : forall h t o, Inv t -> In o (data t) -> Inv (fst (_selectRow h t o)).
Proof.
  intros h t o [H1 [H2 [H3 _]]] Ho.
  destruct (selectRow_cases h t o) as [E | [d E]]; rewrite E;
    (split; [exact H1|split; [exact H2|split; [exact H3|]]]); simpl.
  - discriminate.
  - intros r Hr; injection Hr as <-; exact Ho.
Qed.
End InvFacts.

Module InvClaims.
Import Fields Table TableInv TableFacts InvFacts Scenarios.
Local Open Scope list_scope.

(** C3 (as stated): every operation preserves [Inv].  [clear] and
    [_setData] with [clear=True] (so also [refresh]) do not: they empty
    [data] but keep [_selected].  Here the rows a, b, c are loaded and
    row 0 is selected; [Inv] holds, and fails after [clear] and after
    [refresh]. *)
Lemma clear_keeps_stale_selection :
  let t := fst (_selectRow (snd abc_loaded) (fst abc_loaded) 0) in
  Inv t /\ ~ Inv (clear t) /\
  ~ Inv (fst (refresh base_getField number_lt Searcher.init (snd abc_loaded) t)).
Proof.
  intros t.
  assert (Ed : data t = [0; 1; 2]) by (vm_compute; reflexivity).
  assert (Esd : _shownData t = [0; 1; 2]) by (vm_compute; reflexivity).
  assert (Es : shown t = 3) by (vm_compute; reflexivity).
  assert (Em : max_size t = 1000) by (vm_compute; reflexivity).
  assert (Esel : _selected t = Some 0) by (vm_compute; reflexivity).
  assert (Ec : data (clear t) = [] /\ _selected (clear t) = Some 0)
    by (vm_compute; split; reflexivity).
  assert (Er : data (fst (refresh base_getField number_lt Searcher.init (snd abc_loaded) t)) = [] /\
               _selected (fst (refresh base_getField number_lt Searcher.init (snd abc_loaded) t)) = Some 0)
    by (vm_compute; split; reflexivity).
  split; [|split].
  - unfold Inv. rewrite Ed, Esd, Es, Em, Esel.
    split; [apply incl_refl|]. split; [reflexivity|]. split; [lia|].
    intros r Hr; injection Hr as <-; simpl; auto.
  - intros [_ [_ [_ H]]]. destruct Ec as [E1 E2]. rewrite E1 in H.
    exact (H 0 E2).
  - intros [_ [_ [_ H]]]. destruct Er as [E1 E2]. rewrite E1 in H.
    exact (H 0 E2).
Qed.

(** C3 (amended): [_setData] (hence [refresh]) re-derives the shown rows,
    which gives [ShownInv] (shown rows are rows of [data], [shown] is their
    number and at most [max_size]) from any state.  [Inv] (with the
    selected row a row of [data]) is preserved by a non-clearing
    [_setData], by a clearing one when nothing is selected, by [setFilter],
    by [setSort], and by [_selectRow] of a row of [data].  [clear] empties
    [data] and leaves [_shownData], [shown] and [_selected] as they were,
    and a clearing [_setData] keeps [_selected]. *)
Theorem table_ops_invariant :
  forall (gf : obj -> field -> option jval) klt s h t,
    (forall (rows : list ref) (clr : bool), ShownInv (fst (_setData gf klt s h rows clr t))) /\
    (Inv t -> forall rows, Inv (fst (_setData gf klt s h rows false t))) /\
    (Inv t -> _selected t = None ->
       forall (rows : list ref) (clr : bool), Inv (fst (_setData gf klt s h rows clr t))) /\
    (Inv t -> forall f, Inv (setFilter gf klt s h f t)) /\
    (Inv t -> forall F, Inv (setSort gf klt h F t)) /\
    (Inv t -> forall o, In o (data t) -> Inv (fst (_selectRow h t o))) /\
    (data (clear t) = [] /\ _shownData (clear t) = _shownData t /\
     shown (clear t) = shown t /\ _selected (clear t) = _selected t) /\
    (forall rows : list ref, _selected (fst (_setData gf klt s h rows true t)) = _selected t) /\
    ShownInv (fst (refresh gf klt s h t)) /\
    _selected (fst (refresh gf klt s h t)) = _selected t.
Proof.
  intros gf klt s h t.
  split; [intros; apply setData_ShownInv|].
  split; [intros Hi rows; apply setData_Inv; auto|].
  split; [intros Hi Hn rows clr; apply setData_Inv; auto|].
  split; [intros Hi f; apply setFilter_Inv; auto|].
  split; [intros Hi F; apply setSort_Inv; auto|].
  split; [intros Hi o Ho; apply selectRow_Inv; auto|].
  split; [unfold clear, clearArray; destruct t; simpl; auto|].
  split; [intros rows; apply (setData_data_selected gf klt s h rows true t)|].
  split; [apply setData_ShownInv|].
  apply (setData_data_selected gf klt s h [] true t).
Qed.

Lemma table_ops_invariant_witness :
  Inv (Table.init [uidF; dateF]) /\ _selected (Table.init [uidF; dateF]) = None /\
  Inv (fst abc_loaded) /\
  Inv (setSort base_getField number_lt (snd abc_loaded) dateF (fst abc_loaded)).
Proof.
  assert (H0 : Inv (Table.init [uidF; dateF])).
  { unfold Inv; simpl. split; [apply incl_refl|]. split; [reflexivity|].
    split; [lia|]. discriminate. }
  assert (H1 : Inv (fst abc_loaded)).
  { exact (proj1 (proj2 (proj2 (table_ops_invariant base_getField number_lt Searcher.init
             abc_heap (Table.init [uidF; dateF])))) H0 eq_refl [0; 1; 2] true). }
  split; [exact H0|]. split; [reflexivity|]. split; [exact H1|].
  exact (proj1 (proj2 (proj2 (proj2 (proj2 (table_ops_invariant base_getField number_lt
           Searcher.init (snd abc_loaded) (fst abc_loaded)))))) H1 dateF).
Defined.
End InvClaims.

Module GuardFacts.
Import RefreshGuard GuardInv.

Lemma init_GInv : GInv init.
Proof.
  split; [right; exists 0; repeat split | intros q Hq; injection Hq as <-; simpl; lia].
Qed.

Lemma step_GInv : forall g e, GInv g -> GInv (step g e).
Proof.
  intros g [|p ok] Hg; simpl.
  - unfold refresh. destruct (_refreshing g) eqn:Er; simpl; [exact Hg|].
    destruct Hg as [Hst Hq].
    destruct Hst as [[Hp _] | [p [_ [Hr _]]]]; [|congruence].
    split; [right; exists (next g); rewrite Hp; repeat split
           | intros q E; injection E as <-; simpl; lia].
  - destruct Hg as [Hst Hq]. unfold settle.
    destruct Hst as [[Hp Hr] | [p0 [Hp [Hr Hpr]]]]; rewrite Hp; simpl.
    + split; [left; split; assumption | exact Hq].
    + destruct (Nat.eqb p p0) eqn:E; simpl; [|split; [right; exists p0; auto | exact Hq]].
      apply Nat.eqb_eq in E; subst p0. rewrite Nat.eqb_refl; simpl.
      destruct ok; (split; [left; split; reflexivity | exact Hq]).
Qed.

Lemma run_GInv : forall es g, GInv g -> GInv (run g es).
Proof.
  induction es as [|e es IH]; intros g Hg; simpl; [exact Hg|].
  apply IH, step_GInv, Hg.
Qed.
End GuardFacts.

Module GuardClaims.
Import RefreshGuard GuardInv GuardFacts.

(** C5: in every state reached from [Tabs.__init__] by calls to
    [Tabs.refresh()] and settlements of aggregates, at most one aggregate
    is in flight, and [_refreshing] is set exactly while one is.  A call
    while one is in flight returns its handle and changes nothing (no
    per-table refresh is started); the settlement of the in-flight
    aggregate, fulfilled or rejected, clears the guard; a call when the
    guard is clear starts the [ntabs] per-table refreshes and returns a
    new handle, different from every handle given before. *)
Theorem refresh_guard_single_flight :
  forall es,
    let g := run init es in
    List.length (pending g) <= 1 /\
    (_refreshing g = true <-> pending g <> []) /\
    (_refreshing g = true ->
       exists p, pending g = [p] /\ refresh g = (g, Some p)) /\
    (forall p ok, In p (pending g) ->
       _refreshing (settle g p ok) = false /\ pending (settle g p ok) = []) /\
    (_refreshing g = false ->
       snd (refresh g) = Some (next g) /\
       pending (fst (refresh g)) = [next g] /\
       _refreshing (fst (refresh g)) = true /\
       started (fst (refresh g)) = started g + ntabs /\
       (forall q, _refreshPromise g = Some q -> q <> next g) /\
       (forall q, In q (pending g) -> q <> next g)).
Proof.
  intros es g.
  destruct (run_GInv es init init_GInv) as [Hst Hq]; fold g in Hst, Hq.
  destruct Hst as [[Hp Hr] | [p [Hp [Hr Hpr]]]].
  - rewrite Hp, Hr. simpl. split; [lia|].
    split; [split; [discriminate | intros H; exfalso; apply H; reflexivity]|].
    split; [discriminate|]. split; [intros p ok []|].
    intros _. unfold refresh; rewrite Hr; simpl.
    rewrite Hp. split; [reflexivity|]. split; [reflexivity|]. split; [reflexivity|].
    split; [reflexivity|]. split; [|intros q []].
    intros q E; specialize (Hq q E); lia.
  - rewrite Hp, Hr. simpl. split; [lia|].
    split; [split; [discriminate | reflexivity]|].
    split; [intros _; exists p; split; [reflexivity|]; unfold refresh; rewrite Hr, Hpr; reflexivity|].
    split; [|discriminate].
    intros p' ok [<- | []]. unfold settle; rewrite Hp; simpl; rewrite Nat.eqb_refl; simpl.
    destruct ok; split; reflexivity.
Qed.

Lemma refresh_guard_single_flight_witness :
  _refreshing (run init [Call]) = true /\
  exists p, pending (run init [Call]) = [p] /\
            refresh (run init [Call]) = (run init [Call], Some p).
Proof.
  split; [reflexivity|].
  exact (proj1 (proj2 (proj2 (refresh_guard_single_flight [Call]))) eq_refl).
Defined.
End GuardClaims.

Module SelectFacts.
Import Table TableInv.

Lemma digit_not_underscore : forall d, Ascii.eqb "_" (digit (Z.modulo d 10)) = false.
Proof.
  intros d. unfold digit.
  assert (H := Z.mod_pos_bound d 10 ltac:(lia)).
  assert (Hk : (Z.to_nat (d mod 10) < 10)%nat) by lia.
  generalize dependent (Z.to_nat (d mod 10)). intros k Hk.
  do 10 (destruct k as [|k]; [reflexivity|]). lia.
Qed.

Lemma digits_aux_not_private : forall f n acc,
  startswith acc "_" = false -> startswith (digits_aux f n acc) "_" = false.
Proof.
  induction f as [|f IH]; intros n acc H; [exact H|].
  assert (H' : startswith (String (digit (n mod 10)) acc) "_" = false).
  { change (Ascii.eqb "_" (digit (n mod 10)) && startswith acc "" = false).
    rewrite digit_not_underscore. reflexivity. }
  change (startswith (if (n <? 10)%Z then String (digit (n mod 10)) acc
                      else digits_aux f (n / 10) (String (digit (n mod 10)) acc)) "_" = false).
  destruct (n <? 10)%Z; [exact H'| apply IH, H'].
Qed.
Lemma index_kept : forall i x, hide_private (z_to_string (Z.of_nat i)) x = true.
Proof.
  intros i x. unfold hide_private, z_to_string.
  replace (Z.of_nat i <? 0)%Z with false by (symmetry; apply Z.ltb_ge; lia).
  rewrite digits_aux_not_private; reflexivity.
Qed.

Lemma ser_hide_private : forall g v ind,
  ser hide_private g ind v = ser no_replacer g ind (strip_private v).
Proof.
  intros g v; induction v as [| | | |l IHl|o IHo] using jval_ind'; intros ind; try reflexivity.
  - cbn [ser strip_private].
    match goal with |- context [?F 0 l] => set (A := F 0 l) end.
    match goal with |- context [?F 0 (map strip_private l)] => set (B := F 0 (map strip_private l)) end.
    assert (E : A = B); [|rewrite E; reflexivity].
    unfold A, B; clear A B. generalize 0.
    induction IHl as [|x l Hx Hl IH]; intros i; [reflexivity|].
    cbn [map]. rewrite index_kept. f_equal; [apply Hx | apply IH].
  - cbn [ser strip_private].
    match goal with |- context [?F o] => set (A := F o) end.
    match goal with |- context [?F (?G o)] => set (B := F (G o)) end.
    assert (E : A = B); [|rewrite E; reflexivity].
    unfold A, B; clear A B.
    induction IHo as [|[k x] o Hx Ho IH]; [reflexivity|].
    simpl in Hx. cbn.
    unfold hide_private at 1. fold (is_private k). destruct (is_private k); simpl.
    + exact IH.
    + rewrite Hx. f_equal; exact IH.
Qed.

Lemma detail_of_pretty : forall o, detail_of o = pretty (strip_private (JObj o)).
Proof.
  intros o; unfold detail_of, _stringify, stringify, pretty.
  change (hide_private "" (JObj o)) with true; cbv iota.
  apply ser_hide_private.
Qed.

Lemma get_del_prop_same : forall k o, get k (del_prop k o) = None.
Proof.
  intros k o; induction o as [|[k' v] o IH]; simpl; [reflexivity|].
  destruct (String.eqb k' k) eqn:E; simpl; [exact IH|].
  rewrite String.eqb_sym, E; exact IH.
Qed.

Lemma get_del_prop_other : forall k k' o, k <> k' -> get k (del_prop k' o) = get k o.
Proof.
  intros k k' o Hk; induction o as [|[k2 v] o IH]; simpl; [reflexivity|].
  destruct (String.eqb k2 k') eqn:E; simpl.
  - apply String.eqb_eq in E; subst k2.
    apply String.eqb_neq in Hk; rewrite Hk; exact IH.
  - rewrite IH; reflexivity.
Qed.

Lemma get_set_prop_other : forall k k' v o, k <> k' -> get k (set_prop k' v o) = get k o.
Proof.
  intros k k' v o Hk; induction o as [|[k2 v2] o IH]; simpl.
  - apply String.eqb_neq in Hk; rewrite Hk; reflexivity.
  - destruct (String.eqb k' k2) eqn:E; simpl.
    + apply String.eqb_eq in E; subst k2.
      apply String.eqb_neq in Hk; rewrite Hk; reflexivity.
    + rewrite IH; reflexivity.
Qed.

Lemma upd_eq : forall h r o, upd h r o r = o.
Proof. intros; unfold upd; rewrite Nat.eqb_refl; reflexivity. Qed.

Lemma upd_neq : forall h r r' o, r' <> r -> upd h r o r' = h r'.
Proof. intros h r r' o H; unfold upd; apply Nat.eqb_neq in H; rewrite H; reflexivity. Qed.

(** [_selectRow] of the selected row (its id a number) deselects it. *)
Lemma selectRow_same : forall h t a n,
  FlagInv h t -> _selected t = Some a -> get "_uid" (h a) = Some (JNum n) ->
  let r := _selectRow h t a in
  fst r = set_selected t None "" /\ (forall x, flagged (snd r) x = false) /\
  (forall x, get "_uid" (snd r x) = get "_uid" (h x)).
Proof.
  intros h t a n Hf Hs Hu r; unfold r, _selectRow; rewrite Hs.
  rewrite upd_eq, get_del_prop_other, Hu by discriminate; simpl; rewrite Z.eqb_refl; simpl.
  split; [reflexivity|]. split.
  - intros x; unfold flagged. destruct (Nat.eq_dec x a) as [->|Hx].
    + rewrite upd_eq, get_del_prop_same; reflexivity.
    + rewrite upd_neq by exact Hx.
      destruct (get "_selected" (h x)) eqn:E; [|reflexivity].
      exfalso. assert (Hx' := Hf x ltac:(rewrite E; discriminate)). congruence.
  - intros x; destruct (Nat.eq_dec x a) as [->|Hx].
    + rewrite upd_eq, get_del_prop_other by discriminate; reflexivity.
    + rewrite upd_neq by exact Hx; reflexivity.
Qed.

(** [_selectRow] of a row whose id differs from the selected one's. *)
Lemma selectRow_new : forall h t o i,
  FlagInv h t -> get "_uid" (h o) = Some (JNum i) ->
  (forall s, _selected t = Some s -> loose_eq (get "_uid" (h s)) (Some (JNum i)) = false) ->
  let r := _selectRow h t o in
  _selected (fst r) = Some o /\ FlagInv (snd r) (fst r) /\
  (forall x, flagged (snd r) x = true <-> x = o) /\
  detailSelected (fst r) = pretty (strip_private (JObj (snd r o))) /\
  (forall x, get "_uid" (snd r x) = get "_uid" (h x)).
Proof.
  intros h t o i Hf Hu Hsel r.
  (* the heap after the deselection, as a function of the row deselected *)
  assert (Hsel_h1 : exists h1, snd r = upd h1 o (set_prop "_selected" (JBool true) (h1 o)) /\
            fst r = set_selected t (Some o) (detail_of (snd r o)) /\
            (forall x, x <> o -> get "_selected" (h1 x) <> None -> False) /\
            (forall x, get "_uid" (h1 x) = get "_uid" (h x))).
  { unfold r, _selectRow. destruct (_selected t) as [s|] eqn:Es.
    - specialize (Hsel s eq_refl).
      destruct (Nat.eq_dec o s) as [->|Hos].
      { rewrite Hu in Hsel; simpl in Hsel; rewrite Z.eqb_refl in Hsel; discriminate. }
      assert (Hc : loose_eq (get "_uid" (upd h s (del_prop "_selected" (h s)) s))
                     (get "_uid" (upd h s (del_prop "_selected" (h s)) o)) = false).
      { rewrite upd_eq, get_del_prop_other by discriminate.
        rewrite (upd_neq h s o) by exact Hos. rewrite Hu; exact Hsel. }
      rewrite Hc.
      exists (upd h s (del_prop "_selected" (h s))). split; [reflexivity|]. split; [reflexivity|].
      split.
      + intros x Hxo Hx. destruct (Nat.eq_dec x s) as [->|Hxs].
        * rewrite upd_eq, get_del_prop_same in Hx; apply Hx; reflexivity.
        * rewrite upd_neq in Hx by exact Hxs. specialize (Hf x Hx); congruence.
      + intros x; destruct (Nat.eq_dec x s) as [->|Hxs].
        * rewrite upd_eq, get_del_prop_other by discriminate; reflexivity.
        * rewrite upd_neq by exact Hxs; reflexivity.
    - exists h. split; [reflexivity|]. split; [reflexivity|]. split; [|reflexivity].
      intros x _ Hx. specialize (Hf x Hx); congruence. }
  destruct Hsel_h1 as [h1 [Eh [Et [Hflag Huid]]]].
  assert (Hfl : forall x, flagged (snd r) x = true <-> x = o).
  { intros x; unfold flagged; rewrite Eh. destruct (Nat.eq_dec x o) as [->|Hxo].
    - rewrite upd_eq, get_set_prop; split; reflexivity.
    - rewrite upd_neq by exact Hxo. split; [|intros; contradiction].
      destruct (get "_selected" (h1 x)) eqn:E; [|discriminate].
      intros _; exfalso; apply (Hflag x Hxo); rewrite E; discriminate. }
  rewrite Et; simpl. split; [reflexivity|]. split; [|split; [exact Hfl|split]].
  - intros x Hx. simpl; f_equal; symmetry. apply Hfl. unfold flagged.
    destruct (get "_selected" (snd r x)); [reflexivity | contradiction].
  - apply detail_of_pretty.
  - intros x; rewrite Eh. destruct (Nat.eq_dec x o) as [->|Hxo].
    + rewrite upd_eq, get_set_prop_other by discriminate; apply Huid.
    + rewrite upd_neq by exact Hxo; apply Huid.
Qed.
End SelectFacts.

Module SelectClaims.
Import Table TableInv SelectFacts Scenarios.

(** C6: with only the selected row carrying the [_selected] flag,
    selecting the selected row (its id a number) clears the selection:
    [_selected] becomes [None], [detailSelected] the empty string, and no
    row is flagged.  Selecting a row A and then a row B whose id differs
    from A's leaves only B flagged and selected.  On each selection,
    [detailSelected] is the row pretty-printed with two spaces, every
    property whose key starts with "_" left out at every depth. *)
Theorem selectRow_toggle_and_detail :
  forall h t, FlagInv h t ->
    (forall a n, _selected t = Some a -> get "_uid" (h a) = Some (JNum n) ->
       let r := _selectRow h t a in
       _selected (fst r) = None /\ detailSelected (fst r) = "" /\
       (forall x, flagged (snd r) x = false)) /\
    (forall A B i j,
       get "_uid" (h A) = Some (JNum i) -> get "_uid" (h B) = Some (JNum j) -> i <> j ->
       (forall s, _selected t = Some s -> loose_eq (get "_uid" (h s)) (Some (JNum i)) = false) ->
       let r1 := _selectRow h t A in
       let r2 := _selectRow (snd r1) (fst r1) B in
       _selected (fst r1) = Some A /\
       detailSelected (fst r1) = pretty (strip_private (JObj (snd r1 A))) /\
       _selected (fst r2) = Some B /\
       (forall x, flagged (snd r2) x = true <-> x = B) /\
       detailSelected (fst r2) = pretty (strip_private (JObj (snd r2 B)))).
Proof.
  intros h t Hf. split.
  - intros a n Hs Hu r.
    destruct (selectRow_same h t a n Hf Hs Hu) as [E [Hfl _]].
    fold r in E, Hfl. rewrite E. split; [reflexivity|]. split; [reflexivity|exact Hfl].
  - intros A B i j HuA HuB Hij Hsel r1 r2.
    destruct (selectRow_new h t A i Hf HuA Hsel) as [S1 [F1 [_ [D1 U1]]]].
    fold r1 in S1, F1, D1, U1.
    assert (HuB' : get "_uid" (snd r1 B) = Some (JNum j)) by (rewrite U1; exact HuB).
    assert (Hsel' : forall s, _selected (fst r1) = Some s ->
                      loose_eq (get "_uid" (snd r1 s)) (Some (JNum j)) = false).
    { intros s Hs. rewrite S1 in Hs; injection Hs as <-.
      rewrite U1, HuA; simpl. apply Z.eqb_neq; exact Hij. }
    destruct (selectRow_new (snd r1) (fst r1) B j F1 HuB' Hsel') as [S2 [_ [Fl2 [D2 _]]]].
    fold r2 in S2, Fl2, D2.
    split; [exact S1|]. split; [exact D1|]. split; [exact S2|]. split; [exact Fl2|exact D2].
Qed.

Lemma selectRow_toggle_and_detail_witness :
  FlagInv (snd abc_loaded) (fst abc_loaded) /\
  let r1 := _selectRow (snd abc_loaded) (fst abc_loaded) 0 in
  let r2 := _selectRow (snd r1) (fst r1) 1 in
  _selected (fst r2) = Some 1 /\ (forall x, flagged (snd r2) x = true <-> x = 1).
Proof.
  assert (Hf : FlagInv (snd abc_loaded) (fst abc_loaded)).
  { intros r Hr. exfalso; apply Hr.
    destruct r as [|[|[|r]]]; vm_compute; reflexivity. }
  split; [exact Hf|].
  destruct (proj2 (selectRow_toggle_and_detail (snd abc_loaded) (fst abc_loaded) Hf)
              0 1 0%Z 1%Z ltac:(vm_compute; reflexivity) ltac:(vm_compute; reflexivity)
              ltac:(lia) ltac:(intros s Hs; vm_compute in Hs; discriminate))
    as [_ [_ [S2 [Fl2 _]]]].
  split; [exact S2 | exact Fl2].
Defined.
End SelectClaims.

Module SearchClaims.
Import Searcher.

End SearchClaims.

Module FieldClaims.
Import Fields.

(** C9: [view] on a missing or null value never raises, and every field
    class but [EpochField] renders the empty string.  [EpochField] does
    not: the empty string it formats is read as the number 0 by
    [data / 1000], so the cell shows the epoch,
    "1970-01-01T00:00:00.000Z". *)
Theorem view_missing :
  (forall k, view k None <> None /\ view k (Some JNull) <> None) /\
  (forall k, k <> KEpoch ->
     option_map td_text (view k None) = Some "" /\
     option_map td_text (view k (Some JNull)) = Some "") /\
  view KEpoch None =
    Some (mk_td [("title", "1970-01-01T00:00:00.000Z")] "1970-01-01T00:00:00.000Z") /\
  view KEpoch (Some JNull) =
    Some (mk_td [("title", "1970-01-01T00:00:00.000Z")] "1970-01-01T00:00:00.000Z").
Proof.
  split; [|split; [|vm_compute; split; reflexivity]].
  - intros [| | | |[|c h]]; vm_compute; split; discriminate.
  - intros [| | | |[|c h]] Hk; [..|exfalso; apply Hk; reflexivity| |];
      vm_compute; split; reflexivity.
Qed.

Lemma view_missing_witness :
  KDate <> KEpoch /\ option_map td_text (view KDate None) = Some "".
Proof.
  split; [discriminate|].
  exact (proj1 (proj1 (proj2 view_missing) KDate ltac:(discriminate))).
Defined.
End FieldClaims.

Module SearchFacts.
Import Fields Table TableInv TableFacts SortFacts InvFacts SelectFacts Searcher WorldInv.
Local Open Scope list_scope.

(** A search accepts only values holding a string. *)
Lemma checkAny_has_string : forall s v, _checkAny s v = true -> has_string v = true.
Proof.
  intros s v; induction v as [| | | |l IHl|o IHo] using jval_ind'; simpl; intros H;
    try reflexivity; try discriminate.
  - revert H; induction IHl as [|x l Hx Hl IH]; [discriminate|].
    destruct (_checkAny s x) eqn:E; intros H.
    + rewrite (Hx eq_refl); reflexivity.
    + rewrite (IH H), orb_true_r; reflexivity.
  - revert H; induction IHo as [|[k x] o Hx Ho IH]; [discriminate|]. simpl in Hx |- *.
    unfold is_private in *. destruct (startswith k "_"); simpl; [exact IH|].
    destruct (_checkAny s x) eqn:E; intros H.
    + rewrite (Hx eq_refl); reflexivity.
    + rewrite (IH H), orb_true_r; reflexivity.
Qed.

(** The search set up with no term or the empty term. *)
Lemma checkAny_empty : forall v, _checkAny (setSearch None) v = has_string v.
Proof.
  intros v; induction v as [| | | |l IHl|o IHo] using jval_ind'; try reflexivity.
  - simpl. destruct s; reflexivity.
  - simpl. induction IHl as [|x l Hx Hl IH]; [reflexivity|].
    rewrite Hx. destruct (has_string x); [reflexivity|exact IH].
  - simpl. induction IHo as [|[k x] o Hx Ho IH]; [reflexivity|]. simpl in Hx |- *.
    unfold is_private in *. destruct (startswith k "_"); simpl; [exact IH|].
    rewrite Hx. destruct (has_string x); [reflexivity|exact IH].
Qed.

Lemma has_string_set_private : forall k v o,
  is_private k = true -> has_string_obj (set_prop k v o) = has_string_obj o.
Proof.
  intros k v o Hk; unfold has_string_obj; induction o as [|[k' x] o IH]; simpl.
  - rewrite Hk; reflexivity.
  - destruct (String.eqb k k') eqn:E; simpl.
    + apply String.eqb_eq in E; subst k'. rewrite Hk; reflexivity.
    + simpl in IH. rewrite IH; reflexivity.
Qed.

Lemma has_string_del_private : forall k o,
  is_private k = true -> has_string_obj (del_prop k o) = has_string_obj o.
Proof.
  intros k o Hk; unfold has_string_obj, del_prop; induction o as [|[k' x] o IH]; simpl;
    [reflexivity|].
  destruct (String.eqb k' k) eqn:E; simpl.
  - apply String.eqb_eq in E; subst k'. rewrite Hk; simpl. exact IH.
  - simpl in IH. rewrite IH; reflexivity.
Qed.

Lemma HS_refl : forall h, HS h h.
Proof. intros h r; reflexivity. Qed.

Lemma HS_trans : forall h1 h2 h3, HS h1 h2 -> HS h2 h3 -> HS h1 h3.
Proof. intros h1 h2 h3 H12 H23 r; rewrite H23; apply H12. Qed.

Lemma HS_upd_private : forall h r k f,
  is_private k = true -> (f = set_prop k (JBool true) \/ f = del_prop k) ->
  HS h (upd h r (f (h r))).
Proof.
  intros h r k f Hk Hf r'. unfold upd. destruct (Nat.eqb r' r) eqn:E; [|reflexivity].
  apply Nat.eqb_eq in E; subst r'.
  destruct Hf as [->| ->]; [apply has_string_set_private | apply has_string_del_private];
    exact Hk.
Qed.

Lemma add_rows_HS : forall rows h t, HS h (snd (add_rows h t rows)).
Proof.
  induction rows as [|r rows IH]; intros h t; simpl; [apply HS_refl|].
  eapply HS_trans; [|apply IH].
  intros r'; unfold upd. destruct (Nat.eqb r' r) eqn:E; [|reflexivity].
  apply Nat.eqb_eq in E; subst r'. apply has_string_set_private; reflexivity.
Qed.

Lemma setData_HS : forall gf klt s h rows clr t, HS h (snd (_setData gf klt s h rows clr t)).
Proof.
  intros; rewrite setData_unfold; simpl. apply add_rows_HS.
Qed.

Lemma selectRow_HS : forall h t o, HS h (snd (_selectRow h t o)).
Proof.
  intros h t o; unfold _selectRow. destruct (_selected t) as [sel|].
  - destruct (loose_eq _ _); simpl.
    + apply (HS_upd_private h sel "_selected" (del_prop "_selected")); auto.
    + eapply HS_trans; [apply (HS_upd_private h sel "_selected" (del_prop "_selected")); auto|].
      apply (HS_upd_private _ o "_selected" (set_prop "_selected" (JBool true))); auto.
  - simpl. apply (HS_upd_private h o "_selected" (set_prop "_selected" (JBool true))); auto.
Qed.

Lemma SearchInv_HS : forall h h' t, HS h h' -> SearchInv h t -> SearchInv h' t.
Proof.
  intros h h' t Hs Hi Hf. specialize (Hi Hf).
  rewrite Forall_forall in Hi |- *. intros r Hr. rewrite Hs; auto.
Qed.

Section Ops.
Variable gf : obj -> field -> option jval.
Variable klt : option jval -> option jval -> bool.

Lemma processData_SearchInv : forall s h t, SearchInv h (_processData gf klt s h t).
Proof.
  intros s h t Hf. rewrite processData_eq in Hf |- *. simpl in Hf |- *.
  set (acc := firstn (max_size t) (List.filter (accepts s h t) (data t))).
  apply Forall_forall; intros r Hr.
  apply (Permutation_in _ (sorted_shown_perm gf klt h (set_shownData t acc (List.length acc))))
    in Hr; simpl in Hr.
  apply in_firstn, filter_In in Hr as [_ Ha].
  unfold accepts in Ha; rewrite Hf in Ha; simpl in Ha.
  exact (checkAny_has_string s (JObj (h r)) Ha).
Qed.

Lemma setFilter_SearchInv : forall s h f t,
  SearchInv h t -> SearchInv h (setFilter gf klt s h f t).
Proof.
  intros s h f t Hi; unfold setFilter.
  destruct (negb (opt_filt_eqb f (filter t))); [apply processData_SearchInv | exact Hi].
Qed.

Lemma setSort_SearchInv : forall h F t, SearchInv h t -> SearchInv h (setSort gf klt h F t).
Proof.
  intros h F t Hi Hf.
  destruct (setSort_shape gf klt h F t) as [[f [_ Hsd]] _].
  assert (Hft : filter (setSort gf klt h F t) = filter t).
  { unfold setSort, _sortData.
    destruct (opt_field_eqb (sortField t) F); simpl; [destruct (sortField t); simpl|]; auto. }
  rewrite Hft in Hf. specialize (Hi Hf).
  rewrite Hsd. rewrite Forall_forall in Hi |- *. intros r Hr.
  apply Hi. exact (Permutation_in _ (py_sort_perm _ _ _ _) Hr).
Qed.

Lemma setData_SearchInv : forall s h rows clr t,
  SearchInv (snd (_setData gf klt s h rows clr t)) (fst (_setData gf klt s h rows clr t)).
Proof. intros; rewrite setData_unfold; apply processData_SearchInv. Qed.
End Ops.

Lemma clear_SearchInv : forall h t, SearchInv h t -> SearchInv h (clear t).
Proof. intros h [] Hi; exact Hi. Qed.

Lemma selectRow_SearchInv : forall h t o,
  SearchInv h t -> SearchInv (snd (_selectRow h t o)) (fst (_selectRow h t o)).
Proof.
  intros h t o Hi. apply (SearchInv_HS h); [apply selectRow_HS|].
  destruct (selectRow_cases h t o) as [E | [d E]]; rewrite E; exact Hi.
Qed.

Lemma SearchInv_all_HS : forall h h' ts,
  HS h h' -> Forall (SearchInv h) ts -> Forall (SearchInv h') ts.
Proof. intros h h' ts Hs; apply Forall_impl; intros t; apply SearchInv_HS, Hs. Qed.

Section World.
Import TabsModel.
Variable gfa : nat -> obj -> field -> option jval.
Variable klt : option jval -> option jval -> bool.

Lemma run_op_SearchInv : forall i s h o t,
  SearchInv h t ->
  SearchInv (snd (run_op gfa klt i s h o t)) (fst (run_op gfa klt i s h o t)) /\
  HS h (snd (run_op gfa klt i s h o t)).
Proof.
  intros i s h [|rows clr|f|fld|r|] t Hi; simpl.
  - split; [apply clear_SearchInv, Hi | apply HS_refl].
  - split; [apply setData_SearchInv | apply setData_HS].
  - split; [apply setFilter_SearchInv, Hi | apply HS_refl].
  - split; [apply setSort_SearchInv, Hi | apply HS_refl].
  - split; [apply selectRow_SearchInv, Hi | apply selectRow_HS].
  - split; [first [apply setData_SearchInv | apply processData_SearchInv]
           | first [apply setData_HS | apply HS_refl]].
Qed.

Lemma on_table_SearchInv : forall i s h o ts k,
  Forall (SearchInv h) ts ->
  Forall (SearchInv (snd (on_table gfa klt i s h o ts k))) (fst (on_table gfa klt i s h o ts k)) /\
  HS h (snd (on_table gfa klt i s h o ts k)).
Proof.
  intros i s h o ts; induction ts as [|t ts IH]; intros k Hall; simpl.
  - split; [constructor | apply HS_refl].
  - inversion Hall as [|? ? Ht Hts]; subst.
    destruct (Nat.eqb k i).
    + destruct (run_op_SearchInv i s h o t Ht) as [H1 H2].
      destruct (run_op gfa klt i s h o t) as [t' h'] eqn:E; simpl in *.
      split; [constructor; [exact H1 | exact (SearchInv_all_HS h h' ts H2 Hts)] | exact H2].
    + destruct (IH (S k) Hts) as [H1 H2].
      destruct (on_table gfa klt i s h o ts (S k)) as [ts'' h'] eqn:E; simpl in *.
      split; [constructor; [exact (SearchInv_HS h h' t H2 Ht) | exact H1] | exact H2].
Qed.

Lemma filter_all_SearchInv : forall s h func ts k,
  Forall (SearchInv h) ts -> Forall (SearchInv h) (filter_all gfa klt s h func ts k).
Proof.
  intros s h func ts; induction ts as [|t ts IH]; intros k Hall; simpl; [constructor|].
  inversion Hall; subst. constructor; [apply setFilter_SearchInv; assumption | auto].
Qed.

Lemma init_WInv : forall h0, WInv (init h0).
Proof. intros h0; repeat constructor; discriminate. Qed.

Lemma wstep_WInv : forall w e, WInv w -> WInv (wstep gfa klt w e).
Proof.
  intros w [i o|text|text cur] Hw; unfold WInv in *; simpl.
  - destruct (on_table_SearchInv i (searcher w) (w_heap w) o (tables w) 0 Hw) as [H1 _].
    destruct (on_table gfa klt i (searcher w) (w_heap w) o (tables w) 0); exact H1.
  - apply filter_all_SearchInv, Hw.
  - apply filter_all_SearchInv, Hw.
Qed.

Lemma wrun_WInv : forall es w, WInv w -> WInv (wrun gfa klt w es).
Proof.
  induction es as [|e es IH]; intros w Hw; simpl; [exact Hw|].
  apply IH, wstep_WInv, Hw.
Qed.

(** [setFilter(search)] on every table, with the empty search. *)
Lemma filter_all_empty : forall h ts k,
  Forall2 (fun t t' =>
    filter t' = Some FSearch /\
    (filter t <> Some FSearch ->
       Permutation (_shownData t')
         (firstn (max_size t) (List.filter (fun r => has_string_obj (h r)) (data t)))))
    ts (filter_all gfa klt (Searcher.setSearch None) h (fun _ => Some FSearch) ts k).
Proof.
  intros h ts; induction ts as [|t ts IH]; intros k; simpl; constructor; [|apply IH].
  unfold setFilter. destruct (filter t) as [[|j p]|] eqn:Ef; simpl;
    (split; [rewrite processData_eq; reflexivity|intros _]);
    rewrite processData_eq; simpl; rewrite sorted_shown_perm; simpl;
    apply Permutation_refl', f_equal, filter_ext; intros r;
    unfold accepts; simpl; apply checkAny_empty.
Qed.
End World.
End SearchFacts.

Module EmptySearchClaims.
Import Fields Table TableInv Searcher SearchFacts TabsModel WorldInv.

(** C10: after [setSearch] with no term or the empty term, [search]
    accepts exactly the rows holding a string under keys not starting
    with "_".  [Tabs.searchAll] with an empty search box, in any state
    reached from [Tabs.__init__], sets the search as the filter of every
    table (it clears none), and every table then shows only rows holding
    a string; a table whose filter was not yet the search shows (up to
    order) the first [max_size] rows of [data] holding a string. *)
Theorem empty_search_filters_all :
  forall (gfa : nat -> obj -> field -> option jval) klt h0 es text,
    text = None \/ text = Some "" ->
    let w := wrun gfa klt (TabsModel.init h0) es in
    let w' := searchAll gfa klt text w in
    (forall o, search (setSearch text) o = has_string_obj o) /\
    Forall (fun t => filter t = Some FSearch) (tables w') /\
    Forall (fun t => Forall (fun r => has_string_obj (w_heap w' r) = true) (_shownData t))
      (tables w') /\
    Forall2 (fun t t' =>
      filter t <> Some FSearch ->
      Permutation (_shownData t')
        (firstn (max_size t) (List.filter (fun r => has_string_obj (w_heap w r)) (data t))))
      (tables w) (tables w').
Proof.
  intros gfa klt h0 es text Ht w w'.
  assert (Hs : setSearch text = setSearch None) by (destruct Ht as [-> | ->]; reflexivity).
  assert (Hw : WInv w) by apply wrun_WInv, init_WInv.
  assert (Hw' : WInv w').
  { unfold WInv in *. unfold w'; simpl. apply filter_all_SearchInv, Hw. }
  pose proof (filter_all_empty gfa klt (w_heap w) (tables w) 0) as H2.
  unfold w'; unfold searchAll; rewrite Hs. simpl.
  unfold w', searchAll in Hw'; rewrite Hs in Hw'; unfold WInv in Hw'; simpl in Hw'.
  assert (Hf : Forall (fun t => filter t = Some FSearch)
                 (filter_all gfa klt (setSearch None) (w_heap w) (fun _ => Some FSearch) (tables w) 0)).
  { clear Hw'. induction H2 as [|t t' ts ts' [Hf _] _ IH]; constructor; assumption. }
  split; [intros o; apply checkAny_empty|].
  split; [exact Hf|].
  split.
  - rewrite Forall_forall in Hw', Hf |- *. intros t Hin. exact (Hw' t Hin (Hf t Hin)).
  - clear Hf Hw'. induction H2 as [|t t' ts ts' [_ Hp] _ IH]; constructor; assumption.
Qed.

Lemma empty_search_filters_all_witness :
  ((None : option string) = None \/ (None : option string) = Some "") /\
  Forall (fun t => filter t = Some FSearch)
    (tables (searchAll (fun _ => base_getField) number_lt None
               (wrun (fun _ => base_getField) number_lt (TabsModel.init (fun _ => [])) []))).
Proof.
  assert (Ht : (None : option string) = None \/ (None : option string) = Some "")
    by (left; reflexivity).
  split; [exact Ht|].
  exact (proj1 (proj2 (empty_search_filters_all (fun _ => base_getField) number_lt
                         (fun _ => []) [] None Ht))).
Defined.
End EmptySearchClaims.

Module ViewFacts.
Import Fields Table TableInv TableFacts SelectFacts View.
Local Open Scope list_scope.

Lemma active_rows_app : forall l1 l2, active_rows (l1 ++ l2) = active_rows l1 ++ active_rows l2.
Proof. intros; unfold active_rows; apply flat_map_app. Qed.

Section R.
Variable gfr : obj -> field -> option (option jval).

Lemma data_rows_active : forall h t rs body,
  data_rows gfr h t rs = Some body ->
  active_rows body = List.filter (fun r => opt_truthy (get "_selected" (h r))) rs /\
  List.length body = List.length rs.
Proof.
  intros h t; induction rs as [|r rs IH]; intros body H; simpl in H.
  - injection H as <-; split; reflexivity.
  - destruct (_makeRow gfr t (h r)) as [row|]; [|discriminate].
    destruct (data_rows gfr h t rs) as [vs|] eqn:E; [|discriminate].
    injection H as <-. destruct (IH vs eq_refl) as [IH1 IH2].
    simpl. split; [|rewrite IH2; reflexivity].
    unfold active_rows in *; simpl. rewrite IH1.
    destruct (opt_truthy (get "_selected" (h r))); reflexivity.
Qed.

Lemma view_rows_active : forall h t rows,
  _view_rows gfr h t = Some rows ->
  active_rows rows = List.filter (fun r => opt_truthy (get "_selected" (h r))) (_shownData t).
Proof.
  intros h t rows H; unfold _view_rows in H.
  destruct (data_rows gfr h t (_shownData t)) as [body|] eqn:E; [|discriminate].
  injection H as <-. rewrite !active_rows_app.
  rewrite (proj1 (data_rows_active h t _ body E)).
  destruct (Nat.leb _ _), (Nat.eqb _ _); simpl; rewrite ?app_nil_r; reflexivity.
Qed.
End R.

Lemma selectRow_truthy : forall h t o,
  FlagInv h t ->
  forall r, opt_truthy (get "_selected" (snd (_selectRow h t o) r)) =
            match _selected (fst (_selectRow h t o)) with
            | Some s => Nat.eqb r s
            | None => false
            end.
Proof.
  intros h t o Hf r. unfold _selectRow.
  assert (Hno : forall x, _selected t <> Some x -> get "_selected" (h x) = None).
  { intros x Hx. destruct (get "_selected" (h x)) eqn:E; [|reflexivity].
    exfalso; apply Hx, Hf; rewrite E; discriminate. }
  destruct (_selected t) as [sel|] eqn:Es.
  - set (h1 := upd h sel (del_prop "_selected" (h sel))).
    assert (H1 : forall x, x <> o -> get "_selected" (h1 x) = None).
    { intros x _. unfold h1. destruct (Nat.eq_dec x sel) as [->|Hx].
      - rewrite upd_eq; apply get_del_prop_same.
      - rewrite upd_neq by exact Hx. apply Hno. intros E; injection E; auto. }
    assert (H1' : forall x, get "_selected" (h1 x) = None).
    { intros x. unfold h1. destruct (Nat.eq_dec x sel) as [->|Hx].
      - rewrite upd_eq; apply get_del_prop_same.
      - rewrite upd_neq by exact Hx. apply Hno. intros E; injection E; auto. }
    destruct (loose_eq _ _); simpl.
    + rewrite H1'; reflexivity.
    + destruct (Nat.eq_dec r o) as [->|Hr].
      * rewrite upd_eq, get_set_prop, Nat.eqb_refl; reflexivity.
      * rewrite upd_neq by exact Hr. rewrite H1'. symmetry; apply Nat.eqb_neq; exact Hr.
  - simpl. destruct (Nat.eq_dec r o) as [->|Hr].
    + rewrite upd_eq, get_set_prop, Nat.eqb_refl; reflexivity.
    + rewrite upd_neq by exact Hr. rewrite Hno by discriminate.
      symmetry; apply Nat.eqb_neq; exact Hr.
Qed.

Lemma setSort_fields : forall gf klt h f t, fields (setSort gf klt h f t) = fields t.
Proof.
  intros gf klt h f t; unfold setSort, _sortData.
  destruct (opt_field_eqb (sortField t) f); simpl; [destruct (sortField t)|]; reflexivity.
Qed.

Lemma sort_headers_map : forall t x l,
  sortField t = Some x ->
  sort_headers (map (header t) l) = map (header t) (List.filter (fun g => Nat.eqb (fid x) (fid g)) l).
Proof.
  intros t x l Hx; unfold sort_headers in *; induction l as [|g l IH]; [reflexivity|].
  cbn [map List.filter].
  destruct (Nat.eqb (fid x) (fid g)) eqn:E.
  - assert (Hh : header t g = VElem "th.ui.right.labeled.icon" [("onclick", ASetSort g)]
                                [arrow (reversed t); VText (title g)])
      by (unfold header; rewrite Hx; simpl; rewrite E; reflexivity).
    rewrite Hh, String.eqb_refl, IH; simpl; rewrite Hh; reflexivity.
  - assert (Hh : header t g = VElem "th" [("onclick", ASetSort g)] [VText (title g)])
      by (unfold header; rewrite Hx; simpl; rewrite E; reflexivity).
    rewrite Hh; simpl; exact IH.
Qed.

Lemma filter_fid_unique : forall (f : field) n l,
  NoDup (map fid l) -> In f l -> fid f = n ->
  List.filter (fun g => Nat.eqb n (fid g)) l = [f].
Proof.
  intros f n l; induction l as [|g l IH]; intros Hnd Hin Hn; [destruct Hin|].
  simpl in Hnd; inversion Hnd as [|? ? Hnin Hnd']; subst.
  assert (Hnone : forall y, In y l -> Nat.eqb (fid g) (fid y) = false).
  { intros y Hy. apply Nat.eqb_neq. intros E. apply Hnin. rewrite E. apply in_map; exact Hy. }
  destruct Hin as [<-|Hin]; simpl.
  - rewrite Nat.eqb_refl. f_equal.
    clear IH Hnd Hnd' Hnin. induction l as [|y l IHl]; [reflexivity|]; simpl.
    rewrite Hnone by (left; reflexivity). apply IHl.
    intros z Hz; apply Hnone; right; exact Hz.
  - assert (E : Nat.eqb (fid f) (fid g) = false).
    { rewrite Nat.eqb_sym. apply Hnone; exact Hin. }
    rewrite E. apply IH; auto.
Qed.

Lemma filter_false_nil : forall (A : Type) (l : list A), List.filter (fun _ => false) l = [].
Proof. intros A l; induction l; auto. Qed.

Lemma make_cells_raise : forall (gfr : obj -> field -> option (option jval)) o f fs d,
  In f fs -> gfr o f = Some d -> view (kind f) d = None -> make_cells gfr o fs = None.
Proof.
  intros gfr o f fs d; induction fs as [|g fs IH]; intros Hin Hg Hv; [destruct Hin|].
  simpl. destruct Hin as [->|Hin].
  - rewrite Hg, Hv; reflexivity.
  - destruct (gfr o g) as [dg|]; [|reflexivity].
    destruct (view (kind g) dg); [|reflexivity].
    rewrite IH by assumption; reflexivity.
Qed.

Lemma make_cells_getField_raise : forall (gfr : obj -> field -> option (option jval)) o f fs,
  In f fs -> gfr o f = None -> make_cells gfr o fs = None.
Proof.
  intros gfr o f fs; induction fs as [|g fs IH]; intros Hin Hg; [destruct Hin|].
  simpl. destruct Hin as [->|Hin].
  - rewrite Hg; reflexivity.
  - destruct (gfr o g) as [dg|]; [|reflexivity].
    destruct (view (kind g) dg); [|reflexivity].
    rewrite IH by assumption; reflexivity.
Qed.

Lemma data_rows_raise : forall (gfr : obj -> field -> option (option jval)) h t r rs,
  In r rs -> _makeRow gfr t (h r) = None -> data_rows gfr h t rs = None.
Proof.
  intros gfr h t r rs; induction rs as [|x rs IH]; intros Hin Hr; [destruct Hin|].
  simpl. destruct Hin as [->|Hin].
  - rewrite Hr; reflexivity.
  - destruct (_makeRow gfr t (h x)); [|reflexivity].
    rewrite IH by assumption; reflexivity.
Qed.
End ViewFacts.

Module ViewExtras.
Import Fields Table TableInv TableFacts InvFacts SelectFacts View ViewFacts Scenarios.
Local Open Scope list_scope.

(** X1: when the fields of a table have distinct identities, clicking
    the header of one of them ([setSort]) leaves exactly one header with a
    sort arrow, the clicked one; the arrow points down exactly when that
    field was already the sort field and the order was not reversed. *)
Theorem setSort_arrow_on_clicked_column :
  forall (gf : obj -> field -> option jval) klt h f t,
  NoDup (map fid (fields t)) -> In f (fields t) ->
  sort_headers (_view_headers (setSort gf klt h f t)) =
    [VElem "th.ui.right.labeled.icon" [("onclick", ASetSort f)]
       [arrow (opt_field_eqb (sortField t) f && negb (reversed t)); VText (title f)]].
Proof.
  intros gf klt h f t Hnd Hin.
  destruct (setSort_shape gf klt h f t) as [_ [_ [_ [Hne [Heq Hs]]]]].
  set (t1 := setSort gf klt h f t) in *.
  destruct (sortField t1) as [x|] eqn:Ex; [|discriminate]. simpl in Hs.
  apply Nat.eqb_eq in Hs.
  unfold _view_headers. rewrite (sort_headers_map t1 x _ Ex).
  replace (fields t1) with (fields t) by (symmetry; apply setSort_fields).
  rewrite (filter_fid_unique f (fid x) (fields t) Hnd Hin (eq_sym Hs)).
  simpl. unfold header. rewrite Ex; simpl. rewrite Hs, Nat.eqb_refl.
  do 3 f_equal.
  destruct (opt_field_eqb (sortField t) f) eqn:E.
  - rewrite (proj2 (Heq eq_refl)); reflexivity.
  - rewrite (proj2 (Hne eq_refl)); reflexivity.
Qed.

(** X2: with only the selected row carrying the [_selected] flag, after a
    click on a row ([_selectRow]) the rendered table highlights
    ([tr.active]) either no row, when the click cleared the selection, or
    exactly the shown occurrences of the clicked row, which is then the
    selected one. *)
Theorem selectRow_highlights_selected :
  forall (gfr : obj -> field -> option (option jval)) h t o rows,
  FlagInv h t ->
  _view_rows gfr (snd (_selectRow h t o)) (fst (_selectRow h t o)) = Some rows ->
  (_selected (fst (_selectRow h t o)) = None /\ active_rows rows = []) \/
  (_selected (fst (_selectRow h t o)) = Some o /\
   active_rows rows = List.filter (fun r => Nat.eqb r o) (_shownData t)).
Proof.
  intros gfr h t o rows Hf Hv.
  rewrite (view_rows_active gfr _ _ rows Hv).
  rewrite (List.filter_ext _ _ (selectRow_truthy h t o Hf)).
  destruct (selectRow_cases h t o) as [E | [d E]]; rewrite E; simpl.
  - left; split; [reflexivity|]. apply filter_false_nil.
  - right; split; reflexivity.
Qed.

(** X3: after [_processData] the rendered body is one row per shown row,
    followed by the "Limited to N results." row exactly when at least
    [max_size] rows pass the filter (also when exactly [max_size] pass),
    and by the "No results found." row exactly when no row passes. *)
Theorem processData_footer_rows :
  forall (gf : obj -> field -> option jval) klt (gfr : obj -> field -> option (option jval))
    s h t rows,
  0 < max_size t ->
  _view_rows gfr h (_processData gf klt s h t) = Some rows ->
  let n := List.length (List.filter (accepts s h t) (data t)) in
  exists body,
    rows = body ++ (if Nat.leb (max_size t) n then [limit_row t] else [])
                ++ (if Nat.eqb n 0 then [no_results_row] else []) /\
    List.length body = Nat.min n (max_size t).
Proof.
  intros gf klt gfr s h t rows Hmax Hv n.
  rewrite processData_eq in Hv. unfold _view_rows in Hv. simpl in Hv.
  set (acc := firstn (max_size t) (List.filter (accepts s h t) (data t))) in *.
  destruct (data_rows gfr h _ _) as [body|] eqn:Eb; [|discriminate].
  injection Hv as <-.
  assert (Hacc : List.length acc = Nat.min n (max_size t)).
  { unfold acc, n; rewrite length_firstn; apply Nat.min_comm. }
  exists body. split.
  - unfold limit_row, _limitText; simpl. rewrite Hacc. f_equal. f_equal.
    + destruct (Nat.leb (max_size t) n) eqn:E1, (Nat.leb (max_size t) (Nat.min n (max_size t))) eqn:E2;
        try reflexivity; apply Nat.leb_le in E1 || apply Nat.leb_gt in E1;
        apply Nat.leb_le in E2 || apply Nat.leb_gt in E2; lia.
    + destruct (Nat.eqb n 0) eqn:E1, (Nat.eqb (Nat.min n (max_size t)) 0) eqn:E2;
        try reflexivity; apply Nat.eqb_eq in E1 || apply Nat.eqb_neq in E1;
        apply Nat.eqb_eq in E2 || apply Nat.eqb_neq in E2; lia.
  - rewrite (proj2 (data_rows_active gfr h _ _ body Eb)).
    rewrite <- Hacc. apply Permutation_length, (sorted_shown_perm gf klt h).
Qed.

(** X4: if a shown row holds a number, boolean, array or object (not a
    string, [null] or a missing value) in a column of an [IDField], the
    whole table view raises. *)
Theorem id_column_non_string_raises :
  forall (gfr : obj -> field -> option (option jval)) h t r f hdr v,
  In r (_shownData t) -> In f (fields t) -> kind f = KID hdr ->
  gfr (h r) f = Some (Some v) -> v <> JNull -> (forall s, v <> JStr s) ->
  _view gfr h t = None.
Proof.
  intros gfr h t r f hdr v Hr Hf Hk Hg Hn Hs.
  unfold _view, _view_rows.
  rewrite (data_rows_raise gfr h t r _ Hr); [reflexivity|].
  apply (make_cells_raise gfr (h r) f (fields t) (Some v) Hf Hg).
  unfold view; rewrite Hk.
  destruct v; try reflexivity; try (exfalso; apply Hn; reflexivity).
  exfalso; eapply Hs; reflexivity.
Qed.
Lemma setSort_arrow_on_clicked_column_witness :
  NoDup (map fid (fields (fst abc_loaded))) /\ In dateF (fields (fst abc_loaded)) /\
  sort_headers (_view_headers (setSort base_getField number_lt (snd abc_loaded) dateF (fst abc_loaded))) =
    [VElem "th.ui.right.labeled.icon" [("onclick", ASetSort dateF)]
       [arrow (opt_field_eqb (sortField (fst abc_loaded)) dateF && negb (reversed (fst abc_loaded)));
        VText (title dateF)]].
Proof.
  assert (Hnd : NoDup (map fid (fields (fst abc_loaded)))).
  { vm_compute. constructor; [simpl; intros [H|[]]; discriminate|]. constructor; [simpl; tauto|constructor]. }
  assert (Hin : In dateF (fields (fst abc_loaded))) by (vm_compute; right; left; reflexivity).
  split; [exact Hnd|]. split; [exact Hin|].
  exact (setSort_arrow_on_clicked_column base_getField number_lt (snd abc_loaded) dateF
           (fst abc_loaded) Hnd Hin).
Defined.

Lemma selectRow_highlights_selected_witness :
  let r := _selectRow (snd abc_loaded) (fst abc_loaded) 1 in
  FlagInv (snd abc_loaded) (fst abc_loaded) /\
  exists rows, _view_rows base_getField_r (snd r) (fst r) = Some rows /\
  ((_selected (fst r) = None /\ active_rows rows = []) \/
   (_selected (fst r) = Some 1 /\
    active_rows rows = List.filter (fun x => Nat.eqb x 1) (_shownData (fst abc_loaded)))).
Proof.
  intros r.
  assert (Hf : FlagInv (snd abc_loaded) (fst abc_loaded)).
  { intros x Hx. exfalso; apply Hx.
    destruct x as [|[|[|x]]]; vm_compute; reflexivity. }
  split; [exact Hf|].
  set (rows := match _view_rows base_getField_r (snd r) (fst r) with Some l => l | None => [] end).
  assert (Hv : _view_rows base_getField_r (snd r) (fst r) = Some rows) by (vm_compute; reflexivity).
  exists rows; split; [exact Hv|].
  exact (selectRow_highlights_selected base_getField_r (snd abc_loaded) (fst abc_loaded) 1 rows Hf Hv).
Defined.

Lemma processData_footer_rows_witness :
  let t := fst abc_loaded in
  let h := snd abc_loaded in
  0 < max_size t /\
  exists rows,
    _view_rows base_getField_r h (_processData base_getField number_lt Searcher.init h t) = Some rows /\
    let n := List.length (List.filter (accepts Searcher.init h t) (data t)) in
    exists body,
      rows = body ++ (if Nat.leb (max_size t) n then [limit_row t] else [])
                  ++ (if Nat.eqb n 0 then [no_results_row] else []) /\
      List.length body = Nat.min n (max_size t).
Proof.
  intros t h.
  assert (Hm : 0 < max_size t) by (vm_compute; lia).
  split; [exact Hm|].
  set (rows := match _view_rows base_getField_r h (_processData base_getField number_lt Searcher.init h t)
               with Some l => l | None => [] end).
  assert (Hv : _view_rows base_getField_r h (_processData base_getField number_lt Searcher.init h t)
               = Some rows) by (vm_compute; reflexivity).
  exists rows; split; [exact Hv|].
  exact (processData_footer_rows base_getField number_lt base_getField_r Searcher.init h t rows Hm Hv).
Defined.

Lemma id_column_non_string_raises_witness :
  In 0 (_shownData (fst numuid_loaded)) /\ In uidF (fields (fst numuid_loaded)) /\
  kind uidF = KID "" /\ base_getField_r (snd numuid_loaded 0) uidF = Some (Some (JNum 7)) /\
  _view base_getField_r (snd numuid_loaded) (fst numuid_loaded) = None.
Proof.
  assert (H1 : In 0 (_shownData (fst numuid_loaded))) by (vm_compute; left; reflexivity).
  assert (H2 : In uidF (fields (fst numuid_loaded))) by (vm_compute; left; reflexivity).
  assert (H3 : kind uidF = KID "") by reflexivity.
  assert (H4 : base_getField_r (snd numuid_loaded 0) uidF = Some (Some (JNum 7)))
    by (vm_compute; reflexivity).
  split; [exact H1|]. split; [exact H2|]. split; [exact H3|]. split; [exact H4|].
  exact (id_column_non_string_raises base_getField_r (snd numuid_loaded) (fst numuid_loaded)
           0 uidF "" (JNum 7) H1 H2 H3 H4 ltac:(discriminate) ltac:(intros x; discriminate)).
Defined.
End ViewExtras.

Module StrFacts.
Lemma lower_ascii_idem : forall c, lower_ascii (lower_ascii c) = lower_ascii c.
Proof. intros c; destruct c as [[] [] [] [] [] [] [] []]; reflexivity. Qed.

Lemma lower_idem : forall s, lower (lower s) = lower s.
Proof. induction s as [|c s IH]; simpl; [reflexivity|]; rewrite lower_ascii_idem, IH; reflexivity. Qed.

Lemma length_append : forall a b, String.length (a ++ b) = String.length a + String.length b.
Proof. induction a as [|c a IH]; intros b; simpl; [reflexivity|]; rewrite IH; reflexivity. Qed.

Lemma substring_all : forall s, substring 0 (String.length s) s = s.
Proof. induction s as [|c s IH]; simpl; [reflexivity|]; rewrite IH; reflexivity. Qed.

Lemma substring_app_r : forall a b n m,
  substring (String.length a + n) m (a ++ b) = substring n m b.
Proof. induction a as [|c a IH]; intros b n m; simpl; [reflexivity|]; apply IH. Qed.

Lemma substring_app_l : forall a b,
  substring 0 (String.length a) (a ++ b) = a.
Proof. induction a as [|c a IH]; intros b; simpl; [destruct b; reflexivity|]; rewrite IH; reflexivity. Qed.

Lemma append_assoc : forall a b c, (a ++ b ++ c) = ((a ++ b) ++ c).
Proof. induction a as [|x a IH]; intros b c; simpl; [reflexivity|]; rewrite IH; reflexivity. Qed.

Lemma startswith_app : forall p s, startswith (p ++ s) p = true.
Proof. induction p as [|c p IH]; intros s; simpl; [destruct s; reflexivity|]; rewrite Ascii.eqb_refl, IH; reflexivity. Qed.
End StrFacts.

Module FieldExtras.
Import Fields StrFacts.

(** X5: an [IDField] shows a string with its [Header] removed once from
    the front (title and text alike), and a string not starting with the
    header unchanged. *)
Theorem id_view_strips_header :
  forall hdr s,
  view (KID hdr) (Some (JStr (hdr ++ s))) = Some (mk_td [("title", s)] s) /\
  (startswith s hdr = false -> view (KID hdr) (Some (JStr s)) = Some (mk_td [("title", s)] s)).
Proof.
  intros hdr s; split.
  - unfold view; simpl. rewrite startswith_app, length_append.
    replace (String.length hdr + String.length s - String.length hdr) with (String.length s) by lia.
    assert (E : substring (String.length hdr) (String.length s) (hdr ++ s) = s).
    { rewrite <- (Nat.add_0_r (String.length hdr)) at 1.
      rewrite substring_app_r; apply substring_all. }
    rewrite E; reflexivity.
  - intros H. unfold view, format. rewrite H; reflexivity.
Qed.

(** X6: [Field.__init__] raises exactly when no title is given to a
    [Field] or [FillField] (which have no class [Title]); otherwise the
    title is the given one or the class one, and the name is the title in
    lowercase. *)
Theorem make_title_and_name :
  forall id k t len,
  (make id k t len = None <-> t = None /\ (k = KField \/ k = KFill)) /\
  (forall f, make id k t len = Some f ->
     title f = match t with Some x => x | None => match class_title k with Some c => c | None => "" end end /\
     name f = lower (title f) /\ lower (name f) = name f).
Proof.
  intros id k t len; split.
  - unfold make; destruct t as [x|]; [split; [discriminate|intros [H _]; discriminate]|].
    destruct k; simpl; try (destruct (String.eqb _ _)); try (destruct (String.eqb _ _));
      split; intros H; try discriminate; try tauto;
      destruct H as [_ [H|H]]; discriminate.
  - intros f H; unfold make in H.
    destruct t as [x|];
      [injection H as <-; simpl; split; [reflexivity|split; [reflexivity|apply lower_idem]]|].
    destruct (class_title k) as [c|]; [|discriminate].
    injection H as <-; simpl; split; [reflexivity|split; [reflexivity|apply lower_idem]].
Qed.
End FieldExtras.

Module SearchExtras.
Import Searcher StrFacts.

Lemma search_set_private : forall s k v o,
  is_private k = true -> search s (set_prop k v o) = search s o.
Proof.
  intros s k v o Hk; unfold search, is_private in *; induction o as [|[k' x] o IH]; simpl.
  - rewrite Hk; reflexivity.
  - destruct (String.eqb k k') eqn:E; simpl.
    + apply String.eqb_eq in E; subst k'. rewrite Hk; reflexivity.
    + simpl in IH. rewrite IH; reflexivity.
Qed.

Lemma search_del_private : forall s k o,
  is_private k = true -> search s (del_prop k o) = search s o.
Proof.
  intros s k o Hk; unfold search, del_prop, is_private in *; induction o as [|[k' x] o IH]; simpl;
    [reflexivity|].
  destruct (String.eqb k' k) eqn:E; simpl.
  - apply String.eqb_eq in E; subst k'. rewrite Hk; simpl. exact IH.
  - simpl in IH. rewrite IH; reflexivity.
Qed.

Lemma strip_set_private : forall k v o,
  is_private k = true -> strip_private (JObj (set_prop k v o)) = strip_private (JObj o).
Proof.
  intros k v o Hk; induction o as [|[k' x] o IH]; simpl.
  - rewrite Hk; reflexivity.
  - destruct (String.eqb k k') eqn:E; simpl.
    + apply String.eqb_eq in E; subst k'. rewrite Hk; reflexivity.
    + simpl in IH. injection IH as IH. destruct (is_private k'); [|rewrite IH]; try rewrite IH; reflexivity.
Qed.

Lemma strip_del_private : forall k o,
  is_private k = true -> strip_private (JObj (del_prop k o)) = strip_private (JObj o).
Proof.
  intros k o Hk; unfold del_prop; induction o as [|[k' x] o IH]; simpl; [reflexivity|].
  destruct (String.eqb k' k) eqn:E; simpl.
  - apply String.eqb_eq in E; subst k'. rewrite Hk. exact IH.
  - simpl in IH. injection IH as IH. destruct (is_private k'); rewrite IH; reflexivity.
Qed.

(** X7: setting or deleting a property whose key starts with "_" changes
    neither the search result on a row nor its details text. *)
Theorem private_keys_invisible :
  forall s k v o,
  is_private k = true ->
  search s (set_prop k v o) = search s o /\ search s (del_prop k o) = search s o /\
  Table.detail_of (set_prop k v o) = Table.detail_of o /\
  Table.detail_of (del_prop k o) = Table.detail_of o.
Proof.
  intros s k v o Hk.
  split; [apply search_set_private; exact Hk|].
  split; [apply search_del_private; exact Hk|].
  rewrite !SelectFacts.detail_of_pretty, strip_set_private, strip_del_private by exact Hk.
  split; reflexivity.
Qed.

Lemma checkAny_lower_vals : forall s v,
  caseSensitive s = false -> _checkAny s (lower_vals v) = _checkAny s v.
Proof.
  intros s v Hcs; induction v as [| | | |l IHl|o IHo] using jval_ind'; try reflexivity.
  - simpl. unfold _checkPrimitive; simpl. rewrite Hcs.
    destruct (searchTerm s); [rewrite lower_idem|]; reflexivity.
  - cbn [lower_vals _checkAny].
    induction IHl as [|x l Hx Hl IH]; [reflexivity|].
    cbn [map]. rewrite Hx. destruct (_checkAny s x); [reflexivity|exact IH].
  - cbn [lower_vals _checkAny].
    induction IHo as [|[k x] o Hx Ho IH]; [reflexivity|].
    simpl in Hx. cbn. destruct (startswith k "_"); [exact IH|].
    rewrite Hx. destruct (_checkAny s x); [reflexivity|exact IH].
Qed.

(** X8: a case-insensitive search gives the same answer on two rows that
    differ only in the case of their string values. *)
Theorem unquoted_search_ignores_case :
  forall s o1 o2,
  caseSensitive s = false ->
  lower_vals (JObj o1) = lower_vals (JObj o2) ->
  search s o1 = search s o2.
Proof.
  intros s o1 o2 Hcs E; unfold search.
  rewrite <- (checkAny_lower_vals s (JObj o1) Hcs), <- (checkAny_lower_vals s (JObj o2) Hcs), E.
  reflexivity.
Qed.

(** X9: a term wrapped in double quotes sets a case-sensitive search for
    exactly the term inside the quotes. *)
Theorem quoted_term_round_trip :
  forall t, setSearch (Some (dquote ++ t ++ dquote)) = mk_searcher (Some t) true.
Proof.
  intros t; unfold setSearch.
  assert (Hs : startswith (dquote ++ t ++ dquote) dquote = true) by apply startswith_app.
  assert (He : endswith (dquote ++ t ++ dquote) dquote = true).
  { unfold endswith. rewrite !length_append.
    replace (String.length dquote + (String.length t + String.length dquote) - String.length dquote)
      with (String.length (dquote ++ t) + 0) by (rewrite length_append; lia).
    rewrite append_assoc, substring_app_r, substring_all, String.eqb_refl, andb_true_r.
    apply Nat.leb_le; lia. }
  rewrite Hs, He; cbv [andb]. unfold strip_ends.
  replace (String.length (dquote ++ t ++ dquote) - 2) with (String.length t)
    by (rewrite !length_append; simpl; lia).
  change (substring 1 (String.length t) (dquote ++ t ++ dquote)) with
         (substring 0 (String.length t) (t ++ dquote)).
  rewrite substring_app_l; reflexivity.
Qed.
Lemma private_keys_invisible_witness :
  let s := setSearch (Some "a") in
  let o := [("uid", JStr "a")] in
  is_private "_uid" = true /\
  search s (set_prop "_uid" (JNum 0) o) = search s o /\ search s (del_prop "_uid" o) = search s o /\
  Table.detail_of (set_prop "_uid" (JNum 0) o) = Table.detail_of o /\
  Table.detail_of (del_prop "_uid" o) = Table.detail_of o.
Proof.
  intros s o. split; [reflexivity|].
  exact (private_keys_invisible s "_uid" (JNum 0) o eq_refl).
Defined.

Lemma unquoted_search_ignores_case_witness :
  let s := setSearch (Some "abc") in
  caseSensitive s = false /\
  lower_vals (JObj [("t", JStr "xABC")]) = lower_vals (JObj [("t", JStr "xabc")]) /\
  search s [("t", JStr "xABC")] = search s [("t", JStr "xabc")].
Proof.
  intros s.
  assert (H1 : caseSensitive s = false) by reflexivity.
  assert (H2 : lower_vals (JObj [("t", JStr "xABC")]) = lower_vals (JObj [("t", JStr "xabc")]))
    by (vm_compute; reflexivity).
  split; [exact H1|]. split; [exact H2|].
  exact (unquoted_search_ignores_case s _ _ H1 H2).
Defined.
End SearchExtras.

Module GetterExtras.
Import Fields Table View Getters ViewFacts Scenarios.

(** X10: the Issuants and Keys columns of the entities table show the
    length of an array (0 for an empty array, which JavaScript counts as
    true), and an empty string for a missing, [null], [false], 0 or empty
    string value. *)
Theorem entities_count_columns :
  forall len_other join_other o f,
  In (name f) ["issuants"; "keys"] ->
  (forall l, get (name f) o = Some (JArr l) ->
     entities_getField len_other join_other o f = Some (Some (JNum (Z.of_nat (List.length l))))) /\
  (opt_truthy (get (name f) o) = false ->
     entities_getField len_other join_other o f = Some (Some (JStr ""))).
Proof.
  intros lo jo o f Hin.
  assert (E : entities_getField lo jo o f = Some (count_or_empty lo (get (name f) o))).
  { unfold entities_getField. destruct Hin as [E|[E|[]]]; rewrite <- E; reflexivity. }
  rewrite E; split.
  - intros l Hl; rewrite Hl; reflexivity.
  - unfold count_or_empty, opt_truthy; destruct (get (name f) o) as [v|]; [|reflexivity].
    intros Hv; rewrite Hv; reflexivity.
Qed.

(** X11: the Data column of the entities table shows the keywords joined
    by spaces, a space and the message, when [data] is an object with an
    array of keywords and a non-empty message; it shows an empty string
    when the keywords or the message are missing or false, or when [data]
    itself is missing or false. *)
Theorem entities_data_column :
  forall len_other join_other o f,
  name f = "data" ->
  (forall d kws m, get "data" o = Some (JObj d) -> get "keywords" d = Some (JArr kws) ->
     get "message" d = Some (JStr m) -> m <> "" ->
     entities_getField len_other join_other o f =
       Some (Some (JStr (array_join " " kws ++ " " ++ m)))) /\
  (forall d, get "data" o = Some (JObj d) ->
     opt_truthy (get "keywords" d) = false \/ opt_truthy (get "message" d) = false ->
     entities_getField len_other join_other o f = Some (Some (JStr ""))) /\
  (opt_truthy (get "data" o) = false ->
     entities_getField len_other join_other o f = Some (Some (JStr ""))).
Proof.
  intros lo jo o f Hn.
  assert (U : entities_getField lo jo o f =
    (let d := get "data" o in
     if opt_truthy d then
      match prop d "keywords" with
      | None => None
      | Some kw =>
          if opt_truthy kw then
            match prop d "message" with
            | None => None
            | Some msg =>
                if opt_truthy msg then
                  match kw, msg with
                  | Some (JArr l), Some m => Some (Some (JStr (array_join " " l ++ " " ++ js_to_string m)))
                  | Some x, Some m =>
                      match jo x with
                      | Some j => Some (Some (JStr (j ++ " " ++ js_to_string m)))
                      | None => None
                      end
                  | _, _ => Some (Some (JStr ""))
                  end
                else Some (Some (JStr ""))
            end
          else Some (Some (JStr ""))
      end
    else Some (Some (JStr "")))).
  { unfold entities_getField; rewrite Hn; reflexivity. }
  rewrite U; clear U. split; [|split].
  - intros d kws m Hd Hk Hm Hne. rewrite Hd; cbv zeta. simpl. rewrite Hk, Hm. simpl.
    destruct (String.eqb m "") eqn:E; [apply String.eqb_eq in E; contradiction|reflexivity].
  - intros d Hd Hf. rewrite Hd; cbv zeta. simpl.
    destruct (opt_truthy (get "keywords" d)) eqn:Ek; [|reflexivity].
    destruct Hf as [Hf|Hf]; [congruence|]. rewrite Hf; reflexivity.
  - intros Hd; cbv zeta; rewrite Hd; reflexivity.
Qed.

(** X12: in the anonymous messages table, a shown row with no [anon]
    part (missing or [null]) makes the view raise as soon as a UID, Date
    or Content column is present. *)
Theorem anon_row_without_anon_raises :
  forall h t r f,
  In r (_shownData t) -> In f (fields t) -> In (name f) ["uid"; "date"; "content"] ->
  (get "anon" (h r) = None \/ get "anon" (h r) = Some JNull) ->
  _view anon_getField h t = None.
Proof.
  intros h t r f Hr Hf Hn Ha.
  unfold _view, _view_rows.
  rewrite (data_rows_raise anon_getField h t r _ Hr); [reflexivity|].
  apply (make_cells_getField_raise anon_getField (h r) f (fields t) Hf).
  unfold anon_getField.
  destruct Hn as [E|[E|[E|[]]]]; rewrite <- E; simpl;
    destruct Ha as [Ha|Ha]; rewrite Ha; reflexivity.
Qed.

(** X13: the Created column of the anonymous messages table is an
    [EpochField] that reads the property [create] of the row: a row with
    [create] 60000000 shows 1970-01-01T00:01:00.000Z, and a row without
    [create] shows the epoch 1970-01-01T00:00:00.000Z. *)
Theorem anon_created_reads_create :
  forall o,
  let created := nth 2 TabsModel.anonmsgs_fields (TabsModel.mkf 0 KField "" None) in
  kind created = KEpoch /\
  anon_getField o created = Some (get "create" o) /\
  (get "create" o = Some (JNum 60000000) ->
   match anon_getField o created with
   | Some d => view (kind created) d
   | None => None
   end = Some (mk_td [("title", "1970-01-01T00:01:00.000Z")] "1970-01-01T00:01:00.000Z")) /\
  (get "create" o = None ->
   match anon_getField o created with
   | Some d => view (kind created) d
   | None => None
   end = Some (mk_td [("title", "1970-01-01T00:00:00.000Z")] "1970-01-01T00:00:00.000Z")).
Proof.
  intros o created.
  assert (Hg : anon_getField o created = Some (get "create" o)) by reflexivity.
  split; [reflexivity|]. split; [exact Hg|].
  split; intros Hc; rewrite Hg, Hc; vm_compute; reflexivity.
Qed.
Lemma entities_count_columns_witness :
  let f := nth 4 TabsModel.entities_fields (TabsModel.mkf 0 KField "" None) in
  In (name f) ["issuants"; "keys"] /\
  entities_getField (fun _ => JNum 0) (fun _ => None) [("issuants", JArr [])] f = Some (Some (JNum 0)).
Proof.
  intros f.
  assert (Hin : In (name f) ["issuants"; "keys"]) by (left; reflexivity).
  split; [exact Hin|].
  exact (proj1 (entities_count_columns (fun _ => JNum 0) (fun _ => None) [("issuants", JArr [])] f Hin)
           [] eq_refl).
Defined.

Lemma entities_data_column_witness :
  let f := nth 5 TabsModel.entities_fields (TabsModel.mkf 0 KField "" None) in
  let d := [("keywords", JArr [JStr "red"; JStr "car"]); ("message", JStr "for sale")] in
  name f = "data" /\
  entities_getField (fun _ => JNum 0) (fun _ => None) [("data", JObj d)] f =
    Some (Some (JStr "red car for sale")).
Proof.
  intros f d.
  assert (Hn : name f = "data") by reflexivity.
  split; [exact Hn|].
  exact (proj1 (entities_data_column (fun _ => JNum 0) (fun _ => None) [("data", JObj d)] f Hn)
           d [JStr "red"; JStr "car"] "for sale" eq_refl eq_refl eq_refl ltac:(discriminate)).
Defined.

Lemma anon_row_without_anon_raises_witness :
  let f := nth 0 TabsModel.anonmsgs_fields (TabsModel.mkf 0 KField "" None) in
  In 0 (_shownData (fst noanon_loaded)) /\ In f (fields (fst noanon_loaded)) /\
  In (name f) ["uid"; "date"; "content"] /\ get "anon" (snd noanon_loaded 0) = None /\
  _view anon_getField (snd noanon_loaded) (fst noanon_loaded) = None.
Proof.
  intros f.
  assert (H1 : In 0 (_shownData (fst noanon_loaded))) by (vm_compute; left; reflexivity).
  assert (H2 : In f (fields (fst noanon_loaded))) by (vm_compute; left; reflexivity).
  assert (H3 : In (name f) ["uid"; "date"; "content"]) by (left; reflexivity).
  assert (H4 : get "anon" (snd noanon_loaded 0) = None) by (vm_compute; reflexivity).
  split; [exact H1|]. split; [exact H2|]. split; [exact H3|]. split; [exact H4|].
  exact (anon_row_without_anon_raises (snd noanon_loaded) (fst noanon_loaded) 0 f H1 H2 H3
           (or_introl H4)).
Defined.

Lemma anon_created_reads_create_witness :
  let o := [("created", JNum 5000)] in
  get "create" o = None /\
  let created := nth 2 TabsModel.anonmsgs_fields (TabsModel.mkf 0 KField "" None) in
  match anon_getField o created with
  | Some d => view (kind created) d
  | None => None
  end = Some (mk_td [("title", "1970-01-01T00:00:00.000Z")] "1970-01-01T00:00:00.000Z").
Proof.
  intros o. split; [reflexivity|].
  exact (proj2 (proj2 (proj2 (anon_created_reads_create o))) eq_refl).
Defined.
End GetterExtras.

Module NumSortFacts.
Local Open Scope list_scope.
Section N.
Context {A : Type}.
Variable key : A -> option jval.
Variable kz : A -> Z.

Lemma insert_hd : forall y x l,
  HdRel (fun a b => (kz a <= kz b)%Z) y l -> (fun a b => (kz a <= kz b)%Z) y x -> HdRel (fun a b => (kz a <= kz b)%Z) y (insert key number_lt x l).
Proof.
  intros y x [|z l] Hh Hyx; cbn [insert]; [constructor; exact Hyx|].
  unfold comparator; destruct (number_lt (key z) (key x)); simpl;
    constructor; [inversion Hh; assumption|exact Hyx].
Qed.

Lemma insert_sorted : forall x l,
  (forall a, In a (x :: l) -> key a = Some (JNum (kz a))) ->
  Sorted (fun a b => (kz a <= kz b)%Z) l -> Sorted (fun a b => (kz a <= kz b)%Z) (insert key number_lt x l).
Proof.
  intros x l; induction l as [|y l IH]; intros Hk Hs; cbn [insert]; [repeat constructor|].
  unfold comparator.
  rewrite (Hk y (or_intror (or_introl eq_refl))), (Hk x (or_introl eq_refl)); simpl.
  inversion Hs as [|? ? Hs' Hh]; subst.
  destruct (Z.ltb (kz y) (kz x)) eqn:E; simpl.
  - apply Z.ltb_lt in E. constructor.
    + apply IH; [|exact Hs']. intros a [<-|Ha]; apply Hk; simpl; auto.
    + apply insert_hd; [exact Hh|]. simpl; lia.
  - apply Z.ltb_ge in E. constructor; [exact Hs|]. constructor. simpl; lia.
Qed.

Lemma js_sort_from_sorted : forall l acc,
  (forall a, In a (acc ++ l) -> key a = Some (JNum (kz a))) ->
  Sorted (fun a b => (kz a <= kz b)%Z) acc ->
  Sorted (fun a b => (kz a <= kz b)%Z) (js_sort_from key number_lt acc l).
Proof.
  induction l as [|x l IH]; intros acc Hk Hs; simpl; [exact Hs|].
  apply IH.
  - intros a Ha. apply Hk.
    apply (Permutation_in _ (Permutation_middle acc l x)).
    apply (Permutation_in _ (Permutation_app_tail l (SortFacts.insert_perm key number_lt x acc))) in Ha.
    exact Ha.
  - apply insert_sorted; [|exact Hs].
    intros a [<-|Ha]; apply Hk, in_or_app; [right; left; reflexivity|left; exact Ha].
Qed.

Lemma js_sort_sorted : forall l,
  (forall a, In a l -> key a = Some (JNum (kz a))) ->
  Sorted (fun a b => (kz a <= kz b)%Z) (js_sort key number_lt l).
Proof.
  intros l Hk. apply js_sort_from_sorted; [exact Hk|constructor].
Qed.
End N.

Lemma StronglySorted_snoc : forall (A : Type) (R : A -> A -> Prop) l x,
  StronglySorted R l -> Forall (fun y => R y x) l -> StronglySorted R (l ++ [x]).
Proof.
  intros A R l x; induction l as [|y l IH]; intros Hs Hf; simpl; [repeat constructor|].
  inversion Hs; subst. inversion Hf; subst.
  constructor; [apply IH; assumption|].
  apply Forall_app; split; [assumption|]. constructor; [assumption|constructor].
Qed.

Lemma Sorted_rev : forall (A : Type) (R : A -> A -> Prop) l,
  (forall a b c, R a b -> R b c -> R a c) ->
  Sorted R l -> Sorted (fun a b => R b a) (rev l).
Proof.
  intros A R l Htr Hs. apply StronglySorted_Sorted.
  apply Sorted_StronglySorted in Hs; [|intros a b c; apply Htr].
  induction Hs as [|x l Hs IH Hf]; simpl; [constructor|].
  apply StronglySorted_snoc; [exact IH|].
  apply Forall_forall; intros y Hy. apply in_rev in Hy.
  rewrite Forall_forall in Hf. apply Hf; exact Hy.
Qed.
End NumSortFacts.

Module SortExtras.
Import Fields Table NumSortFacts.

(** X14: when every shown row holds a number under the sort field,
    [_sortData] leaves the rows in ascending order of it, descending when
    the sort is reversed. *)
Theorem sortData_numeric_order :
  forall (gf : obj -> field -> option jval) h t f (kz : ref -> Z),
  sortField t = Some f ->
  (forall r, In r (_shownData t) -> gf (h r) f = Some (JNum (kz r))) ->
  Sorted (fun a b => if reversed t then (kz b <= kz a)%Z else (kz a <= kz b)%Z)
    (_shownData (_sortData gf number_lt h t)).
Proof.
  intros gf h t f kz Hf Hk. unfold _sortData; rewrite Hf; simpl.
  unfold py_sort, sort_then_reverse.
  destruct (reversed t).
  - apply (Sorted_rev _ (fun a b => (kz a <= kz b)%Z)); [intros; lia|].
    apply js_sort_sorted; exact Hk.
  - apply js_sort_sorted; exact Hk.
Qed.
Lemma sortData_numeric_order_witness :
  let t := set_sort (fst Scenarios.abc_loaded) (Some Scenarios.dateF) true in
  let h := snd Scenarios.abc_loaded in
  let kz := fun r => match get "date" (h r) with Some (JNum z) => z | _ => 0%Z end in
  sortField t = Some Scenarios.dateF /\
  (forall r, In r (_shownData t) -> base_getField (h r) Scenarios.dateF = Some (JNum (kz r))) /\
  Sorted (fun a b => if reversed t then (kz b <= kz a)%Z else (kz a <= kz b)%Z)
    (_shownData (_sortData base_getField number_lt h t)).
Proof.
  intros t h kz.
  assert (H1 : sortField t = Some Scenarios.dateF) by reflexivity.
  assert (H2 : forall r, In r (_shownData t) -> base_getField (h r) Scenarios.dateF = Some (JNum (kz r))).
  { intros r Hr. vm_compute in Hr. destruct Hr as [<-|[<-|[<-|[]]]]; vm_compute; reflexivity. }
  split; [exact H1|]. split; [exact H2|].
  exact (sortData_numeric_order base_getField h t Scenarios.dateF kz H1 H2).
Defined.
End SortExtras.

Module TotalFacts.
Import Fields Table TableInv TableFacts InvFacts TabsModel.
Local Open Scope list_scope.

Section Ops.
Variable gf : obj -> field -> option jval.
Variable klt : option jval -> option jval -> bool.

Lemma processData_TotInv : forall s h t, TotInv t -> TotInv (_processData gf klt s h t).
Proof.
  intros s h t Ht. destruct (processData_fields gf klt s h t) as [Hd [Htot _]].
  unfold TotInv; rewrite Hd, Htot; exact Ht.
Qed.

Lemma clear_TotInv : forall t, TotInv (clear t).
Proof. intros t; reflexivity. Qed.

Lemma setData_TotInv : forall s h rows clr t, TotInv t -> TotInv (fst (_setData gf klt s h rows clr t)).
Proof.
  intros s h rows clr t Ht. rewrite setData_unfold; simpl.
  apply processData_TotInv. unfold TotInv; simpl. rewrite length_app.
  destruct clr; [reflexivity|]. unfold TotInv in Ht; lia.
Qed.

Lemma setFilter_TotInv : forall s h f t, TotInv t -> TotInv (setFilter gf klt s h f t).
Proof.
  intros s h f t Ht; unfold setFilter.
  destruct (negb _); [apply processData_TotInv; exact Ht | exact Ht].
Qed.

Lemma setSort_TotInv : forall h f t, TotInv t -> TotInv (setSort gf klt h f t).
Proof.
  intros h f t Ht; unfold setSort, _sortData, TotInv in *.
  destruct (opt_field_eqb (sortField t) f); simpl; [destruct (sortField t); simpl|]; exact Ht.
Qed.
End Ops.

Lemma selectRow_TotInv : forall h t o, TotInv t -> TotInv (fst (_selectRow h t o)).
Proof.
  intros h t o Ht; destruct (selectRow_cases h t o) as [E|[d E]]; rewrite E; exact Ht.
Qed.

Section World.
Variable gfa : nat -> obj -> field -> option jval.
Variable klt : option jval -> option jval -> bool.

Lemma run_op_TotInv : forall i s h o t, TotInv t -> TotInv (fst (run_op gfa klt i s h o t)).
Proof.
  intros i s h [|rows clr|f|fld|r|] t Ht; simpl.
  - apply clear_TotInv.
  - apply setData_TotInv, Ht.
  - apply setFilter_TotInv, Ht.
  - apply setSort_TotInv, Ht.
  - apply selectRow_TotInv, Ht.
  - apply processData_TotInv. unfold TotInv; simpl; rewrite ?length_app; reflexivity.
Qed.

Lemma on_table_TotInv : forall i s h o ts k,
  Forall TotInv ts -> Forall TotInv (fst (on_table gfa klt i s h o ts k)).
Proof.
  intros i s h o ts; induction ts as [|t ts IH]; intros k Hall; simpl; [constructor|].
  inversion Hall as [|? ? Ht Hts]; subst.
  destruct (Nat.eqb k i).
  - pose proof (run_op_TotInv i s h o t Ht) as H1.
    destruct (run_op gfa klt i s h o t) as [t' h']; simpl in *. constructor; assumption.
  - specialize (IH (S k) Hts).
    destruct (on_table gfa klt i s h o ts (S k)) as [ts'' h']; simpl in *. constructor; assumption.
Qed.

Lemma filter_all_TotInv : forall s h func ts k,
  Forall TotInv ts -> Forall TotInv (filter_all gfa klt s h func ts k).
Proof.
  intros s h func ts; induction ts as [|t ts IH]; intros k Hall; simpl; [constructor|].
  inversion Hall; subst. constructor; [apply setFilter_TotInv; assumption | auto].
Qed.

Lemma wstep_TotInv : forall w e, Forall TotInv (tables w) -> Forall TotInv (tables (wstep gfa klt w e)).
Proof.
  intros w [i o|text|text cur] Hw; simpl.
  - pose proof (on_table_TotInv i (searcher w) (w_heap w) o (tables w) 0 Hw) as H.
    destruct (on_table gfa klt i (searcher w) (w_heap w) o (tables w) 0); exact H.
  - apply filter_all_TotInv, Hw.
  - apply filter_all_TotInv, Hw.
Qed.
End World.
End TotalFacts.

Module TotalExtras.
Import Table TableInv TabsModel TotalFacts.

(** X15: from the construction of [Tabs], through any sequence of table
    operations and searches, every table's [total] equals the number of
    rows in its [data]. *)
Theorem total_counts_data :
  forall gfa klt h0 es,
  Forall (fun t => total t = List.length (data t)) (tables (wrun gfa klt (init h0) es)).
Proof.
  intros gfa klt h0 es. change (Forall TotInv (tables (wrun gfa klt (init h0) es))).
  assert (H : Forall TotInv (tables (init h0))) by (repeat constructor).
  revert H; generalize (init h0); induction es as [|e es IH]; intros w Hw; simpl; [exact Hw|].
  apply IH, wstep_TotInv, Hw.
Qed.
End TotalExtras.

Module CurrentTabFacts.
Import Fields Table TableFacts TabsModel CurrentTab.
Local Arguments String.eqb : simpl never.

Lemma currentTab_data_tab : forall a c,
  currentTab a = Some c -> forall k, String.eqb (data_tab k) (data_tab c) = Nat.eqb k c.
Proof.
  intros [a|] c H k; [|discriminate]. unfold currentTab in H. simpl in H.
  repeat (match type of H with context [String.eqb ?x a] => destruct (String.eqb x a) end);
    try discriminate; injection H as <-;
    destruct k as [|[|[|[|[|[|k]]]]]]; reflexivity.
Qed.

Lemma setFilter_filter : forall gf klt s h func t,
  func = None \/ func = Some FSearch -> filter (setFilter gf klt s h func t) = func.
Proof.
  intros gf klt s h func t Hf; unfold setFilter.
  destruct (opt_filt_eqb func (filter t)) eqn:E; simpl.
  - destruct Hf as [->| ->]; destruct (filter t) as [[|j p]|]; simpl in E; congruence.
  - destruct (processData_fields gf klt s h (set_filter t func)) as [_ [_ [_ [Hf' _]]]].
    exact Hf'.
Qed.

Section Keys.
Variable gfa : nat -> obj -> field -> option jval.
Variable klt : option jval -> option jval -> bool.

Lemma search_loop_ok : forall s h truthy current ts k,
  (truthy = false \/ current <> None) ->
  (forall c, current = Some c -> forall j, String.eqb (data_tab j) (data_tab c) = Nat.eqb j c) ->
  snd (search_loop gfa klt s h truthy current ts k) = false /\
  map filter (fst (search_loop gfa klt s h truthy current ts k)) =
    map (fun j => if truthy && match current with Some c => Nat.eqb j c | None => false end
                  then Some FSearch else None) (seq k (List.length ts)).
Proof.
  intros s h truthy current ts; induction ts as [|t ts IH]; intros k Hc Hd; [split; reflexivity|].
  simpl.
  assert (Cond : exists b, (if truthy then
                    match current with
                    | None => None
                    | Some c => Some (String.eqb (data_tab k) (data_tab c))
                    end else Some false) = Some b /\
                 b = truthy && match current with Some c => Nat.eqb k c | None => false end).
  { destruct truthy; [|exists false; split; reflexivity].
    destruct current as [c|]; [|destruct Hc as [Hc|Hc]; [discriminate|congruence]].
    exists (String.eqb (data_tab k) (data_tab c)); split; [reflexivity|].
    apply Hd; reflexivity. }
  destruct Cond as [b [-> Hb]].
  destruct (IH (S k) Hc Hd) as [IH1 IH2].
  destruct (search_loop gfa klt s h truthy current ts (S k)) as [ts'' e] eqn:E; simpl in *.
  split; [exact IH1|]. rewrite IH2, setFilter_filter by (destruct b; auto).
  rewrite <- Hb; reflexivity.
Qed.
End Keys.
End CurrentTabFacts.

Module CurrentTabExtras.
Import Fields Table TabsModel CurrentTab CurrentTabFacts.

(** X16: [searchCurrent] with a non-empty text and no active tab raises
    after installing the new search term, leaving every table as it was. *)
Theorem searchCurrent_no_active_tab_raises :
  forall gfa klt c cs active w,
  currentTab active = None -> tables w <> [] ->
  searchCurrent gfa klt (Some (String c cs)) active w =
    (mk_world (w_heap w) (Searcher.setSearch (Some (String c cs))) (tables w), true).
Proof.
  intros gfa klt c cs active w Ha Hw. unfold searchCurrent. rewrite Ha.
  destruct (tables w) as [|t ts]; [contradiction|]. reflexivity.
Qed.

(** X17: [searchCurrent] with an empty text, or with an active tab, does
    not raise: it installs the search term and sets the search filter on
    the active tab's table when the text is non-empty and clears the
    filter of every other table (of all tables for an empty text). *)
Theorem searchCurrent_filters :
  forall gfa klt text active w,
  let truthy := match text with Some (String _ _) => true | _ => false end in
  truthy = false \/ currentTab active <> None ->
  let '(w', raised) := searchCurrent gfa klt text active w in
  raised = false /\ w_heap w' = w_heap w /\ searcher w' = Searcher.setSearch text /\
  map filter (tables w') =
    map (fun k => if truthy && match currentTab active with Some c => Nat.eqb k c | None => false end
                  then Some FSearch else None) (seq 0 (List.length (tables w))).
Proof.
  intros gfa klt text active w truthy H. unfold searchCurrent. fold truthy.
  destruct (search_loop_ok gfa klt (Searcher.setSearch text) (w_heap w) truthy (currentTab active)
              (tables w) 0 H (fun c Hc => currentTab_data_tab active c Hc)) as [H1 H2].
  destruct (search_loop gfa klt _ _ truthy _ (tables w) 0) as [ts e]; simpl in *.
  split; [exact H1|]. split; [reflexivity|]. split; [reflexivity|exact H2].
Qed.
Lemma searchCurrent_no_active_tab_raises_witness :
  let w := TabsModel.init Scenarios.abc_heap in
  currentTab None = None /\ tables w <> [] /\
  searchCurrent (fun _ => base_getField) number_lt (Some (String "a" EmptyString)) None w =
    (mk_world (w_heap w) (Searcher.setSearch (Some (String "a" EmptyString))) (tables w), true).
Proof.
  intros w.
  assert (H1 : currentTab None = None) by reflexivity.
  assert (H2 : tables w <> []) by discriminate.
  split; [exact H1|]. split; [exact H2|].
  exact (searchCurrent_no_active_tab_raises (fun _ => base_getField) number_lt "a" EmptyString None w H1 H2).
Defined.

Lemma searchCurrent_filters_witness :
  let w := TabsModel.init Scenarios.abc_heap in
  currentTab (Some "offers") <> None /\
  let '(w', raised) := searchCurrent (fun _ => base_getField) number_lt (Some "a") (Some "offers") w in
  raised = false /\ w_heap w' = w_heap w /\ searcher w' = Searcher.setSearch (Some "a") /\
  map filter (tables w') =
    map (fun k => if true && match currentTab (Some "offers") with Some c => Nat.eqb k c | None => false end
                  then Some FSearch else None) (seq 0 (List.length (tables w))).
Proof.
  intros w.
  assert (H : currentTab (Some "offers") <> None) by (vm_compute; discriminate).
  split; [exact H|].
  exact (searchCurrent_filters (fun _ => base_getField) number_lt (Some "a") (Some "offers") w (or_intror H)).
Defined.
End CurrentTabExtras.
